(** * Clipo AI video pipeline: a shallow embedding of [tasks.py] and [main.py]

    The development follows the two source files:
    - [tasks.py]: [get_video_duration], [generate_thumbnail] and the Celery
      task [process_video], with the retry call that ends its handler;
    - [main.py]: the two read endpoints [get_video_status] and
      [get_video_metadata], and the document created by [upload_video].

    Python exceptions are an error monad over an explicit state (the MongoDB
    collection, the broker queue, the clock and a trace of the calls made to
    the outside).  Library code (json, bson, pydantic, subprocess, Celery) is
    taken through the record [Env] or modelled next to its call site.  The
    database and the broker are taken to be reachable: their calls do what
    they are documented to do and raise nothing of their own. *)

From Stdlib Require Import ZArith QArith Qround String Ascii List DecimalString Lia.
From Stdlib Require Import PrimFloat SpecFloat FloatOps.
From stdpp Require Import gmap strings list sorting.

Set Warnings "-register-all".
Open Scope string_scope.
Open Scope Z_scope.

(** ** Python strings *)

(** [str(n)] for a non-negative integer. *)
Definition str_N (n : N) : string := NilZero.string_of_uint (N.to_uint n).

(** [str(z)] for an integer. *)
Definition str_Z (z : Z) : string :=
  if z <? 0 then "-" ++ str_N (Z.to_N (- z)) else str_N (Z.to_N z).

(** The format specification [02d]: decimal, zero-padded to a minimum width
    of two characters, the sign counting towards the width. *)
Definition fmt_02d (z : Z) : string :=
  let s := str_Z z in
  if (String.length s <? 2)%nat then "0" ++ s else s.

(** [s.rfind(c)]: index of the last occurrence, [-1] when there is none. *)
Fixpoint rfind_from (c : ascii) (s : string) (i last : Z) : Z :=
  match s with
  | EmptyString => last
  | String a s' => rfind_from c s' (i + 1) (if Ascii.eqb a c then i else last)
  end.

Definition rfind (c : ascii) (s : string) : Z := rfind_from c s 0 (-1).

(** The slices [p[:i]] and [p[i:]] for an index [0 <= i]. *)
Definition slice_to (p : string) (i : Z) : string := substring 0 (Z.to_nat i) p.
Definition slice_from (p : string) (i : Z) : string :=
  substring (Z.to_nat i) (String.length p - Z.to_nat i) p.

(** The loop of [genericpath._splitext] that skips leading dots: [true] when
    some character of [p] at an index in [filenameIndex, filenameIndex + n)
    is not a dot. *)
Fixpoint non_dot_before (p : string) (filenameIndex n : nat) : bool :=
  match n with
  | O => false
  | S n' =>
      match String.get filenameIndex p with
      | Some a => if Ascii.eqb a "."%char then non_dot_before p (S filenameIndex) n' else true
      | None => true
      end
  end.

(** [os.path.splitext] (posixpath: separator [/], no alternative separator). *)
Definition splitext (p : string) : string * string :=
  let sepIndex := rfind "/"%char p in
  let dotIndex := rfind "."%char p in
  if (sepIndex <? dotIndex)
     && non_dot_before p (Z.to_nat (sepIndex + 1)) (Z.to_nat (dotIndex - (sepIndex + 1)))
  then (slice_to p dotIndex, slice_from p dotIndex)
  else (p, "").

Definition starts_with_slash (s : string) : bool :=
  match s with String a _ => Ascii.eqb a "/"%char | EmptyString => false end.

Fixpoint ends_with_slash (s : string) : bool :=
  match s with
  | EmptyString => false
  | String a EmptyString => Ascii.eqb a "/"%char
  | String _ s' => ends_with_slash s'
  end.

(** [os.path.join(a, b)] (posixpath, two components). *)
Definition path_join (a b : string) : string :=
  if starts_with_slash b then b
  else if (String.length a =? 0)%nat || ends_with_slash a then a ++ b
  else a ++ "/" ++ b.

(** ** Python floats

    A duration is a binary64 float, Rocq's primitive [float].  Multiplication
    is the hardware one.  The conversions to integers in [get_video_duration]
    read the float at its exact rational value: Python's float [%] with
    positive operands is [fmod], which is exact, and [//] returns the exact
    floor whenever that floor is representable, which holds for every
    duration below [2**53] seconds. *)

Definition Q_of_dyadic (m e : Z) : Q :=
  if 0 <=? e then inject_Z (m * 2 ^ e) else Qmake m (Z.to_pos (2 ^ (- e))).

(** The exact value of a finite float; [None] for infinities and NaN. *)
Definition float_value (f : float) : option Q :=
  match Prim2SF f with
  | S754_zero _ => Some (inject_Z 0)
  | S754_finite s m e => Some (Q_of_dyadic (if s then Z.neg m else Z.pos m) e)
  | S754_infinity _ => None
  | S754_nan => None
  end.

(** [int(x // y)] on exact values, for an integer divisor [y > 0]. *)
Definition floordiv (x : Q) (y : Z) : Z := Qfloor (x / inject_Z y).

(** [x % y] on exact values, for an integer divisor [y > 0]. *)
Definition pymod (x : Q) (y : Z) : Q := (x - inject_Z (y * floordiv x y))%Q.

(** The [HH:MM:SS] text of [get_video_duration] (lines 67 to 71). *)
Definition duration_str_of (duration_seconds : Q) : string :=
  let hours := floordiv duration_seconds 3600 in
  let minutes := floordiv (pymod duration_seconds 3600) 60 in
  let seconds := Qfloor (pymod duration_seconds 60) in
  fmt_02d hours ++ ":" ++ fmt_02d minutes ++ ":" ++ fmt_02d seconds.


(** [thumbnail_time = duration_seconds * 0.1] (line 88), in binary64. *)
Definition thumbnail_time_of (duration_seconds : float) : float :=
  PrimFloat.mul duration_seconds 0x1.999999999999ap-4%float.

(** ** Documents, exceptions and the interpreter's environment *)

(** A field of a MongoDB document.  Every field the two files read or write is
    [None] or a string; instants are stored as their [isoformat()] text. *)
Inductive value :=
| VNone
| VStr (s : string).

(** The result of [json.loads]. *)
Inductive json :=
| JNull
| JBool (b : bool)
| JInt (z : Z)
| JFloat (f : float)
| JStr (s : string)
| JList (l : list json)
| JDict (items : list (string * json)).

Inductive exn :=
| CalledProcessError (cmd : list string) (returncode : Z)
| Exception (msg : string)
| KeyError (key : string)
| HTTPException (status_code : Z) (detail : string)
| Retry (when : Z)
| LibError (cls msg : string).   (* raised inside a library call: class, text *)

(** What the libraries and the process environment supply. *)
Record Env := {
  json_loads : string -> exn + json;
  py_float : json -> exn + float;           (* float(x) *)
  subscript_error : json -> string -> exn;  (* x[key] for x that is no dict *)
  str_float : float -> string;              (* str(x) *)
  str_CalledProcessError : list string -> Z -> string;
  ObjectId_is_valid : string -> bool;
  InvalidId : string -> exn;                (* ObjectId(s) for an invalid s *)
  ValidationError : list (string * value) -> exn;   (* pydantic, from the arguments *)
  str_other : exn -> string;                (* str(e) for HTTPException and Retry *)
  isoformat : Z -> string;                  (* datetime.isoformat() *)
  UPLOAD_DIR : string;
  THUMBNAIL_DIR : string
}.

(** [str(e)]. *)
Definition str_exn (env : Env) (e : exn) : string :=
  match e with
  | CalledProcessError cmd returncode => str_CalledProcessError env cmd returncode
  | Exception msg => msg
  | KeyError key => "'" ++ key ++ "'"
  | HTTPException _ _ => str_other env e
  | Retry _ => str_other env e
  | LibError _ msg => msg
  end.

(** How one external process ends: it exits with a return code and its two
    captured streams, or [subprocess.run] raises before there is a return
    code (the executable is missing, the output does not decode). *)
Inductive proc_result :=
| Exited (returncode : Z) (stdout stderr : string)
| NotRun (e : exn).

(** The outside world: what the command [cmd] does during the [n]-th task
    execution of the worker. *)
Definition world := nat -> list string -> proc_result.

Record CompletedProcess := {
  returncode : Z;
  stdout : string;
  stderr : string
}.

(** ** Broker messages, state and trace *)

Record message := {
  task_id : string;
  video_id : string;
  video_path : string;
  stored_filename : string;
  retries : nat;     (* request.retries *)
  eta : Z            (* not to be executed before this instant *)
}.

Inductive task_state :=
| SUCCESS
| RETRY
| FAILURE (e : exn).

Inductive event :=
| EvStart (m : message) (t : Z)                               (* the worker runs a message *)
| EvInsert (id : string) (doc : gmap string value)            (* insert_one *)
| EvUpdate (id : string) (fields : list (string * value))     (* update_one, $set *)
| EvRun (cmd : list string)                                   (* subprocess.run *)
| EvSend (m : message)                                        (* apply_async *)
| EvDone (m : message) (s : task_state).                      (* the task's final state *)

Record state := {
  videos : gmap string (gmap string value);   (* videos_collection, by _id *)
  queue : list message;                       (* the broker *)
  now : Z;                                    (* the clock, in seconds *)
  deliveries : nat;                           (* executions finished so far *)
  log : list event                            (* calls to the outside, newest first *)
}.

Definition set_videos (v : gmap string (gmap string value)) (st : state) : state :=
  {| videos := v; queue := queue st; now := now st; deliveries := deliveries st; log := log st |}.
Definition set_queue (q : list message) (st : state) : state :=
  {| videos := videos st; queue := q; now := now st; deliveries := deliveries st; log := log st |}.
Definition set_now (t : Z) (st : state) : state :=
  {| videos := videos st; queue := queue st; now := t; deliveries := deliveries st; log := log st |}.
Definition set_deliveries (n : nat) (st : state) : state :=
  {| videos := videos st; queue := queue st; now := now st; deliveries := n; log := log st |}.
Definition emit (ev : event) (st : state) : state :=
  {| videos := videos st; queue := queue st; now := now st; deliveries := deliveries st;
     log := ev :: log st |}.

(** ** The monad of Python code: exceptions over state *)

Definition M (A : Type) : Type := state -> (exn + A) * state.

Definition ret {A} (a : A) : M A := fun st => (inr a, st).
Definition raise {A} (e : exn) : M A := fun st => (inl e, st).
Definition bind {A B} (c : M A) (k : A -> M B) : M B :=
  fun st => match c st with
            | (inr a, st') => k a st'
            | (inl e, st') => (inl e, st')
            end.
(** [try: c  except Exception as e: h e]. *)
Definition try_except {A} (c : M A) (h : exn -> M A) : M A :=
  fun st => match c st with
            | (inr a, st') => (inr a, st')
            | (inl e, st') => h e st'
            end.
Definition lift {A} (r : exn + A) : M A := fun st => (r, st).
(** Did the computation raise? *)
Definition raises {A} (r : exn + A) : bool :=
  match r with
  | inl _ => true
  | inr _ => false
  end.
(** The state a computation ends in. *)
Definition exec {A} (c : M A) (st : state) : state := (c st).2.
Definition get_state : M state := fun st => (inr st, st).
Definition modify (f : state -> state) : M unit := fun st => (inr tt, f st).

#[global] Instance M_ret : MRet M := @ret.
#[global] Instance M_bind : MBind M := fun A B k c => bind c k.

(** ** tasks.py *)

Section Tasks.
Context (env : Env) (w : world).

(** [datetime.utcnow().isoformat()]. *)
Definition utcnow_isoformat : M string :=
  fun st => (inr (isoformat env (now st)), st).

(** [ObjectId(s)]: the identifier, or [InvalidId]. *)
Definition ObjectId (s : string) : M string :=
  if ObjectId_is_valid env s then mret s else raise (InvalidId env s).

(** The effect of [$set] on one document. *)
Definition set_fields (fields : list (string * value)) (doc : gmap string value)
  : gmap string value :=
  foldl (fun d kv => <[kv.1 := kv.2]> d) doc fields.

(** [videos_collection.update_one({"_id": oid}, {"$set": fields})]: the
    first matching document is updated; with no match nothing is written
    (there is no upsert) and nothing is raised. *)
Definition update_one (oid : string) (fields : list (string * value)) : M unit :=
  modify (fun st =>
    emit (EvUpdate oid fields) (set_videos (alter (set_fields fields) oid (videos st)) st)).

(** [subprocess.run(cmd, capture_output=True, text=True, check=check)]. *)
Definition subprocess_run (cmd : list string) (check : bool) : M CompletedProcess :=
  st ← get_state;
  modify (emit (EvRun cmd));;
  match w (deliveries st) cmd with
  | NotRun e => raise e
  | Exited rc out err =>
      if check && negb (rc =? 0) then raise (CalledProcessError cmd rc)
      else mret {| returncode := rc; stdout := out; stderr := err |}
  end.

Fixpoint dict_get (key : string) (items : list (string * json)) : option json :=
  match items with
  | [] => None
  | (k, v) :: items' => if String.eqb k key then Some v else dict_get key items'
  end.

(** [x[key]]. *)
Definition getitem (x : json) (key : string) : M json :=
  match x with
  | JDict items =>
      match dict_get key items with
      | Some v => mret v
      | None => raise (KeyError key)
      end
  | _ => raise (subscript_error env x key)
  end.

(** Lines 67 to 71.  On an infinity or a NaN the first floor division
    gives NaN and [int] raises. *)
Definition format_duration (duration_seconds : float) : M string :=
  match float_value duration_seconds with
  | Some v => mret (duration_str_of v)
  | None => raise (LibError "ValueError" "cannot convert float NaN to integer")
  end.

Definition ffprobe_cmd (video_path : string) : list string :=
  ["ffprobe"; "-v"; "quiet"; "-print_format"; "json"; "-show_format"; video_path].

(** The body of the [try] statement of [get_video_duration]
    (lines 48 to 73). *)
Definition get_video_duration_try (video_path : string) : M (string * float) :=
  let cmd := ffprobe_cmd video_path in
  result ← subprocess_run cmd true;
  (if negb (returncode result =? 0)
   then raise (Exception ("FFprobe failed: " ++ stderr result))
   else mret tt);;
  metadata ← lift (json_loads env (stdout result));
  format ← getitem metadata "format";
  duration ← getitem format "duration";
  duration_seconds ← lift (py_float env duration);
  duration_str ← format_duration duration_seconds;
  mret (duration_str, duration_seconds).

Definition get_video_duration (video_path : string) : M (string * float) :=
  try_except
    (get_video_duration_try video_path)
    (fun e =>
       match e with
       | CalledProcessError _ _ =>
           raise (Exception ("Failed to extract duration: " ++ str_exn env e))
       | _ => raise e
       end).

Definition ffmpeg_cmd (video_path output_path : string) (thumbnail_time : float)
  : list string :=
  ["ffmpeg"; "-i"; video_path; "-ss"; str_float env thumbnail_time; "-vframes"; "1";
   "-vf"; "scale=320:240"; "-q:v"; "2"; "-y"; output_path].

(** The body of the [try] statement of [generate_thumbnail]
    (lines 87 to 107). *)
Definition generate_thumbnail_try (video_path output_path : string)
    (duration_seconds : float) : M bool :=
  let thumbnail_time := thumbnail_time_of duration_seconds in
  let cmd := ffmpeg_cmd video_path output_path thumbnail_time in
  result ← subprocess_run cmd true;
  (if negb (returncode result =? 0)
   then raise (Exception ("FFmpeg failed: " ++ stderr result))
   else mret tt);;
  mret true.

Definition generate_thumbnail (video_path output_path : string) (duration_seconds : float)
  : M bool :=
  try_except
    (generate_thumbnail_try video_path output_path duration_seconds)
    (fun e =>
       match e with
       | CalledProcessError _ _ =>
           raise (Exception ("Failed to generate thumbnail: " ++ str_exn env e))
       | _ => raise e
       end).

(** [celery.Task.retry(exc=exc, countdown=countdown, max_retries=max_retries)]
    for a task run by a worker and an explicit [max_retries]: the retry
    count of the request is incremented; when it exceeds [max_retries] the
    original exception is raised; otherwise the same call is published
    again, due [countdown] seconds from now, and [Retry] is raised.  It
    never returns. *)
Definition retry_message (self : message) (due : Z) : message :=
  {| task_id := task_id self; video_id := video_id self;
     video_path := video_path self; stored_filename := stored_filename self;
     retries := S (retries self); eta := due |}.

Definition Task_retry (self : message) (exc : exn) (countdown : Z) (max_retries : nat)
  : M exn :=
  let retries := S (retries self) in
  if (max_retries <? retries)%nat
  then raise exc
  else
    st ← get_state;
    let m := retry_message self (now st + countdown) in
    modify (fun st => emit (EvSend m) (set_queue (queue st ++ [m]) st));;
    raise (Retry countdown).

Record task_return := {
  r_video_id : string;
  r_status : string;
  r_duration : string;
  r_thumbnail_filename : string
}.

Definition thumbnail_filename_of (stored_filename : string) : string :=
  "thumb_" ++ (splitext stored_filename).1 ++ ".jpg".

(** The dictionary [update_data] (lines 143 to 148). *)
Definition update_data (duration_str thumbnail_filename processed_time : string)
  : list (string * value) :=
  [("status", VStr "done");
   ("duration", VStr duration_str);
   ("thumbnail_filename", VStr thumbnail_filename);
   ("processed_time", VStr processed_time)].

(** The dictionary written by the handler (lines 170 to 174). *)
Definition failed_data (error_message processed_time : string) : list (string * value) :=
  [("status", VStr "failed");
   ("error_message", VStr error_message);
   ("processed_time", VStr processed_time)].

(** The [except Exception as e] block of [process_video]. *)
Definition process_video_except (self : message) (video_id : string) (e : exn)
  : M task_return :=
  oid ← ObjectId video_id;
  processed_time ← utcnow_isoformat;
  update_one oid (failed_data (str_exn env e) processed_time);;
  r ← Task_retry self e 60 3;
  raise r.

(** The body of the [try] statement of [process_video]. *)
Definition process_video_try (video_id video_path stored_filename : string)
  : M task_return :=
  oid ← ObjectId video_id;
  update_one oid [("status", VStr "processing")];;
  '(duration_str, duration_seconds) ← get_video_duration video_path;
  let thumbnail_filename := thumbnail_filename_of stored_filename in
  let thumbnail_path := path_join (THUMBNAIL_DIR env) thumbnail_filename in
  generate_thumbnail video_path thumbnail_path duration_seconds;;
  processed_time ← utcnow_isoformat;
  oid ← ObjectId video_id;
  update_one oid (update_data duration_str thumbnail_filename processed_time);;
  mret {| r_video_id := video_id; r_status := "done"; r_duration := duration_str;
          r_thumbnail_filename := thumbnail_filename |}.

Definition process_video (self : message) (video_id video_path stored_filename : string)
  : M task_return :=
  try_except
    (process_video_try video_id video_path stored_filename)
    (process_video_except self video_id).

(** The worker runs one message: it waits for the message to be due, calls
    the task, and records how the call ended. *)
Definition worker_execute (m : message) (st : state) : state :=
  let t := Z.max (now st) (eta m) in
  let st1 := emit (EvStart m t) (set_now t st) in
  let '(r, st2) := process_video m (video_id m) (video_path m) (stored_filename m) st1 in
  let s := match r with
           | inr _ => SUCCESS
           | inl (Retry _) => RETRY
           | inl e => FAILURE e
           end in
  set_deliveries (S (deliveries st2)) (emit (EvDone m s) st2).

(** The worker takes messages off the queue until it is empty. *)
Fixpoint worker_loop (fuel : nat) (st : state) : state :=
  match fuel with
  | O => st
  | S fuel' =>
      match queue st with
      | [] => st
      | m :: q => worker_loop fuel' (worker_execute m (set_queue q st))
      end
  end.

End Tasks.

(** ** main.py *)

Section Main.
Context (env : Env).

Record VideoStatus := {
  vs_id : string;
  vs_status : string
}.

Record VideoMetadata := {
  vm_id : string;
  vm_filename : string;
  vm_upload_time : string;
  vm_status : string;
  vm_duration : option string;
  vm_thumbnail_url : option string
}.

Record UploadResponse := {
  ur_id : string;
  ur_filename : string;
  ur_message : string
}.

(** [videos_collection.find_one({"_id": oid})]. *)
Definition find_one (oid : string) : M (option (gmap string value)) :=
  fun st => (inr (videos st !! oid), st).

(** [doc[key]] and [doc.get(key)]. *)
Definition doc_getitem (doc : gmap string value) (key : string) : M value :=
  match doc !! key with
  | Some v => mret v
  | None => raise (KeyError key)
  end.

Definition doc_get (doc : gmap string value) (key : string) : value :=
  match doc !! key with
  | Some v => v
  | None => VNone
  end.

(** Truth value of a field: [None] and the empty string are false. *)
Definition truthy (v : value) : bool :=
  match v with
  | VNone => false
  | VStr s => negb (String.eqb s "")
  end.

(** A field inside an f-string. *)
Definition format_value (v : value) : string :=
  match v with
  | VNone => "None"
  | VStr s => s
  end.

(** Validation of model fields declared [str] and [Optional[str]]; [args]
    are the arguments of the model's constructor. *)
Definition field_str (args : list (string * value)) (v : value) : M string :=
  match v with
  | VStr s => mret s
  | VNone => raise (ValidationError env args)
  end.

Definition field_optional_str (v : value) : option string :=
  match v with
  | VStr s => Some s
  | VNone => None
  end.

Definition get_video_status (video_id : string) : M VideoStatus :=
  try_except
    ((if negb (ObjectId_is_valid env video_id)
      then raise (HTTPException 400 "Invalid video ID format")
      else mret tt);;
     video_doc ← find_one video_id;
     match video_doc with
     | None => raise (HTTPException 404 "Video not found")
     | Some video_doc =>
         status ← doc_getitem video_doc "status";
         let args := [("id", VStr video_id); ("status", status)] in
         status ← field_str args status;
         mret {| vs_id := video_id; vs_status := status |}
     end)
    (fun e =>
       match e with
       | HTTPException _ _ => raise e
       | _ => raise (HTTPException 500 ("Failed to get video status: " ++ str_exn env e))
       end).

Definition get_video_metadata (video_id : string) : M VideoMetadata :=
  try_except
    ((if negb (ObjectId_is_valid env video_id)
      then raise (HTTPException 400 "Invalid video ID format")
      else mret tt);;
     video_doc ← find_one video_id;
     match video_doc with
     | None => raise (HTTPException 404 "Video not found")
     | Some video_doc =>
         thumbnail_url ←
           (if truthy (doc_get video_doc "thumbnail_filename")
            then
              f ← doc_getitem video_doc "thumbnail_filename";
              mret (VStr ("/thumbnails/" ++ format_value f))
            else mret VNone);
         filename ← doc_getitem video_doc "filename";
         upload_time ← doc_getitem video_doc "upload_time";
         status ← doc_getitem video_doc "status";
         let duration := doc_get video_doc "duration" in
         let args :=
           [("id", VStr video_id); ("filename", filename);
            ("upload_time", upload_time); ("status", status);
            ("duration", duration); ("thumbnail_url", thumbnail_url)] in
         filename ← field_str args filename;
         upload_time ← field_str args upload_time;
         status ← field_str args status;
         mret {| vm_id := video_id; vm_filename := filename;
                 vm_upload_time := upload_time; vm_status := status;
                 vm_duration := field_optional_str duration;
                 vm_thumbnail_url := field_optional_str thumbnail_url |}
     end)
    (fun e =>
       match e with
       | HTTPException _ _ => raise e
       | _ => raise (HTTPException 500 ("Failed to get video metadata: " ++ str_exn env e))
       end).

(** The document [upload_video] inserts (lines 138 to 146). *)
Definition video_doc (filename unique_filename file_path upload_time : string)
  : gmap string value :=
  list_to_map
    [("filename", VStr filename);
     ("stored_filename", VStr unique_filename);
     ("file_path", VStr file_path);
     ("upload_time", VStr upload_time);
     ("status", VStr "pending");
     ("duration", VNone);
     ("thumbnail_url", VNone)].

(** [upload_video], for a request whose file part is named [filename] and
    typed [content_type].  The three identifiers are the ones [uuid4], the
    database and the broker client generate.  Writing the uploaded bytes to
    disk is outside the model. *)
Definition upload_video (content_type : option string) (filename : string)
    (uuid4 inserted_id new_task_id : string) : M UploadResponse :=
  try_except
    ((if match content_type with
         | None => true
         | Some ct => negb (String.prefix "video/" ct)
         end
      then raise (HTTPException 400 "Only video files are allowed")
      else mret tt);;
     let file_extension := (splitext filename).2 in
     let unique_filename := uuid4 ++ file_extension in
     let file_path := path_join (UPLOAD_DIR env) unique_filename in
     upload_time ← utcnow_isoformat env;
     let doc := video_doc filename unique_filename file_path upload_time in
     modify (fun st =>
       emit (EvInsert inserted_id doc) (set_videos (<[inserted_id := doc]> (videos st)) st));;
     let video_id := inserted_id in
     st ← get_state;
     let task := {| task_id := new_task_id; video_id := video_id; video_path := file_path;
                    stored_filename := unique_filename; retries := 0%nat; eta := now st |} in
     modify (fun st => emit (EvSend task) (set_queue (queue st ++ [task]) st));;
     update_one inserted_id [("task_id", VStr new_task_id)];;
     mret {| ur_id := video_id; ur_filename := filename;
             ur_message := "Video uploaded successfully. Processing started." |})
    (fun e =>
       match e with
       | HTTPException _ _ => raise e
       | _ => raise (HTTPException 500 ("Failed to upload video: " ++ str_exn env e))
       end).

End Main.

(** ** A concrete environment and concrete worlds, used to run the model *)

Definition is_hex (a : ascii) : bool :=
  let n := nat_of_ascii a in
  ((48 <=? n) && (n <=? 57) || (97 <=? n) && (n <=? 102) || (65 <=? n) && (n <=? 70))%nat.

Fixpoint all_hex (s : string) : bool :=
  match s with
  | EmptyString => true
  | String a s' => is_hex a && all_hex s'
  end.

(** The text ffprobe prints for a file of the given duration, and for a file
    whose format section has no duration. *)
Definition dq : string := String (ascii_of_nat 34) EmptyString.
Definition quoted (s : string) : string := dq ++ s ++ dq.
Definition ffprobe_json (duration : string) : string :=
  "{" ++ quoted "format" ++ ": {" ++ quoted "duration" ++ ": " ++ quoted duration ++ "}}".
Definition ffprobe_json_no_duration : string := "{" ++ quoted "format" ++ ": {}}".

(** The decimal texts the concrete environment reads as floats. *)
Definition known_floats : list (string * float) :=
  [("120.000000", 120%float);
   ("100.000000", 100%float);
   ("3725.900000", 0x1.d1bcccccccccdp+11%float)].

Fixpoint lookup_float (s : string) (l : list (string * float)) : option float :=
  match l with
  | [] => None
  | (k, f) :: l' => if String.eqb k s then Some f else lookup_float s l'
  end.

Fixpoint lookup_json (s : string) (l : list (string * float)) : option json :=
  match l with
  | [] => None
  | (k, _) :: l' =>
      if String.eqb s (ffprobe_json k)
      then Some (JDict [("format", JDict [("duration", JStr k)])])
      else lookup_json s l'
  end.

(** An environment whose JSON reader knows the outputs above and whose
    identifiers are the 24-digit hexadecimal strings. *)
Definition env0 : Env := {|
  json_loads := fun s =>
    match lookup_json s known_floats with
    | Some j => inr j
    | None =>
        if String.eqb s ffprobe_json_no_duration then inr (JDict [("format", JDict [])])
        else inl (LibError "JSONDecodeError" "Expecting value: line 1 column 1 (char 0)")
    end;
  py_float := fun x =>
    match x with
    | JStr s =>
        match lookup_float s known_floats with
        | Some f => inr f
        | None => inl (LibError "ValueError" ("could not convert string to float: '" ++ s ++ "'"))
        end
    | JFloat f => inr f
    | _ => inl (LibError "TypeError" "float() argument must be a string or a real number")
    end;
  subscript_error := fun _ _ => LibError "TypeError" "object is not subscriptable";
  str_float := fun f =>
    if PrimFloat.eqb f 12%float then "12.0"
    else if PrimFloat.eqb f 10%float then "10.0" else "?";
  str_CalledProcessError := fun cmd rc =>
    "Command '" ++ String.concat " " cmd ++ "' returned non-zero exit status "
    ++ str_Z rc ++ ".";
  ObjectId_is_valid := fun s => (String.length s =? 24)%nat && all_hex s;
  InvalidId := fun s => LibError "InvalidId" ("'" ++ s ++ "' is not a valid ObjectId");
  ValidationError := fun args =>
    LibError "ValidationError"
      ("none is not an allowed value: "
       ++ String.concat ", "
            (map fst (List.filter
                        (fun kv => match kv.2 with VNone => true | VStr _ => false end)
                        args)));
  str_other := fun e =>
    match e with
    | HTTPException status_code detail => str_Z status_code ++ ": " ++ detail
    | _ => "Retry"
    end;
  isoformat := fun t => "T" ++ str_Z t;
  UPLOAD_DIR := "./uploads";
  THUMBNAIL_DIR := "./thumbnails"
|}.

Definition is_ffprobe (cmd : list string) : bool :=
  match cmd with
  | tool :: _ => String.eqb tool "ffprobe"
  | [] => false
  end.

(** Both tools work; ffprobe reports the duration text [duration]. *)
Definition world_ok (duration : string) : world :=
  fun _ cmd => if is_ffprobe cmd then Exited 0 (ffprobe_json duration) "" else Exited 0 "" "".

(** ffprobe exits with status 1 every time. *)
Definition world_ffprobe_fails : world :=
  fun _ cmd => if is_ffprobe cmd then Exited 1 "" "moov atom not found" else Exited 0 "" "".

(** ffmpeg exits with status 1 during the first execution only. *)
Definition world_ffmpeg_fails_once : world :=
  fun n cmd =>
    if is_ffprobe cmd then Exited 0 (ffprobe_json "120.000000") ""
    else match n with
         | O => Exited 1 "" "Conversion failed!"
         | S _ => Exited 0 "" ""
         end.

(** A state with nothing in it, at execution [n]. *)
Definition idle (n : nat) : state :=
  {| videos := ∅; queue := []; now := 0; deliveries := n; log := [] |}.

Definition id0 : string := "65a1f0c2e4b0a1b2c3d4e5f6".

(** The state after one upload at instant 1000 into an empty system. *)
Definition uploaded : state :=
  (upload_video env0 (Some "video/mp4") "holiday.mp4" "9f1c" id0 "task-1"
     (set_now 1000 (idle 0))).2.

(** What [get_video_duration] and [generate_thumbnail] return during
    execution [n]; the state they run in matters through [deliveries] only. *)
Definition duration_outcome (env : Env) (w : world) (n : nat) (video_path : string)
  : exn + (string * float) :=
  (get_video_duration env w video_path (idle n)).1.

Definition thumbnail_outcome (env : Env) (w : world) (n : nat)
    (video_path output_path : string) (duration_seconds : float) : exn + bool :=
  (generate_thumbnail env w video_path output_path duration_seconds (idle n)).1.

(** The (retry count, start instant) of every execution in a log, oldest
    first. *)
Fixpoint starts (l : list event) : list (nat * Z) :=
  match l with
  | [] => []
  | EvStart m t :: l' => starts l' ++ [(retries m, t)]
  | _ :: l' => starts l'
  end.

(** The field of a stored document, when both exist. *)
Definition field (st : state) (id key : string) : option value :=
  videos st !! id ≫= (.!! key).

(** Does a [$set] give [status] the value [s]? *)
Definition sets_status (s : string) (fields : list (string * value)) : bool :=
  existsb (fun kv => String.eqb kv.1 "status"
                     && match kv.2 with VStr x => String.eqb x s | VNone => false end)
    fields.

(** The keys of every write of a log that sets [status] to [done]. *)
Definition done_writes (l : list event) : list (list string) :=
  omap (fun ev =>
          match ev with
          | EvUpdate _ fields =>
              if sets_status "done" fields then Some (map fst fields) else None
          | _ => None
          end) l.

(** The fields the specification lists for the write of the [done]
    transition, under the key the code has for each; the code has no key for
    the duration in seconds. *)
Definition spec_done_fields : list string :=
  ["status"; "duration_seconds"; "duration"; "thumbnail_filename"; "processed_time"].

(** A document whose [thumbnail_filename], when present, is a non-empty
    string: the only kind of value [process_video] stores there. *)
Definition thumbnail_field_ok (doc : gmap string value) : bool :=
  match doc !! "thumbnail_filename" with
  | None => true
  | Some v => truthy v
  end.

Definition msg0 : message :=
  {| task_id := "task-1"; video_id := id0; video_path := "./uploads/9f1c.mp4";
     stored_filename := "9f1c.mp4"; retries := 0; eta := 1000 |}.

(** The state when the uploaded video has been processed with both tools
    working. *)
Definition processed : state := worker_loop env0 (world_ok "120.000000") 1 uploaded.

(** ** States of one execution, written out *)

(** How the worker records a call that raised [e]. *)
Definition state_of_exn (e : exn) : task_state :=
  match e with
  | Retry _ => RETRY
  | _ => FAILURE e
  end.

(** The state in which the worker leaves the system when the handler of
    [process_video] was entered with [e] in state [st]. *)
Definition after_except (env : Env) (m : message) (e : exn) (st : state) : state :=
  let st1 :=
    exec (update_one (video_id m)
            (failed_data (str_exn env e) (isoformat env (now st)))) st in
  let m' := retry_message m (now st + 60) in
  set_deliveries (S (deliveries st))
    (if (3 <? S (retries m))%nat then emit (EvDone m (state_of_exn e)) st1
     else emit (EvDone m RETRY) (emit (EvSend m') (set_queue (queue st ++ [m']) st1))).

(** The state when the worker has started [m] and the task has made its
    first write and run ffprobe. *)
Definition probed (m : message) (st : state) : state :=
  let t := Z.max (now st) (eta m) in
  emit (EvRun (ffprobe_cmd (video_path m)))
    (exec (update_one (video_id m) [("status", VStr "processing")])
       (emit (EvStart m t) (set_now t st))).

Definition thumbnail_path_of (env : Env) (m : message) : string :=
  path_join (THUMBNAIL_DIR env) (thumbnail_filename_of (stored_filename m)).

(** The same, after ffmpeg ran too. *)
Definition thumbnailed (env : Env) (m : message) (d : float) (st : state) : state :=
  emit (EvRun (ffmpeg_cmd env (video_path m) (thumbnail_path_of env m) (thumbnail_time_of d)))
    (probed m st).


(** The record [id] is in one of the two final states. *)
Definition final_status (st : state) (id : string) : Prop :=
  field st id "status" = Some (VStr "done") \/ field st id "status" = Some (VStr "failed").

(** Every document of the collection has a well-formed thumbnail field. *)
Definition store_ok (st : state) : Prop :=
  forall id doc, videos st !! id = Some doc -> thumbnail_field_ok doc = true.

(** ** What one execution may change *)

(** [st'] differs from [st] at most in the fields [keys] of the record [id]:
    every other record and every other field is as it was, and no record was
    added or removed. *)
Definition touches_only (id : string) (keys : list string) (st st' : state) : Prop :=
  (forall id', id' <> id -> videos st' !! id' = videos st !! id')
  /\ (forall key, ~ In key keys -> field st' id key = field st id key)
  /\ dom (videos st') = dom (videos st).

(** The fields [process_video] writes. *)
Definition pipeline_fields : list string :=
  ["status"; "duration"; "thumbnail_filename"; "processed_time"; "error_message"].

(** ** main.py: the listing endpoint *)

(** The order MongoDB sorts these values in: a missing or [None] field
    before every string, strings by comparison of their bytes. *)
Definition value_leb (a b : value) : bool :=
  match a, b with
  | VNone, _ => true
  | VStr _, VNone => false
  | VStr x, VStr y => String.leb x y
  end.

(** [a] may come before [b] in [sort("upload_time", -1)]: its [upload_time]
    is not smaller. *)
Definition upload_time_desc (a b : string * gmap string value) : Prop :=
  value_leb (doc_get b.2 "upload_time") (doc_get a.2 "upload_time") = true.

#[global] Instance upload_time_desc_dec a b : Decision (upload_time_desc a b).
Proof. unfold upload_time_desc. apply _. Defined.

(** [videos_collection.find().sort("upload_time", -1)]: every document, as
    the pair of its [_id] and its other fields, sorted on [upload_time] in
    descending order.  The order among documents with equal [upload_time] is
    left to the database; the model takes the one of a merge sort. *)
Definition find_sorted (st : state) : list (string * gmap string value) :=
  merge_sort upload_time_desc (map_to_list (videos st)).

(** [serialize_video_doc]: the identifier moves from [_id] to [id], as
    text. *)
Definition serialize_video_doc (doc : option (string * gmap string value))
  : option (gmap string value) :=
  match doc with
  | Some (oid, fields) => Some (<["id" := VStr oid]> fields)
  | None => None
  end.

Definition list_videos (env : Env) : M (list (option (gmap string value))) :=
  try_except
    (videos ← (fun st => (inr (find_sorted st), st));
     let serialized_videos := map (fun video => serialize_video_doc (Some video)) videos in
     mret serialized_videos)
    (fun e => raise (HTTPException 500 ("Failed to list videos: " ++ str_exn env e))).

(** ** main.py: copying the upload to disk *)

(** [upload_file.read(size)]: the next [size] bytes, fewer at the end of the
    file and none after it, together with the bytes left unread. *)
Definition read_chunk (size : nat) (unread : list Byte.byte)
  : list Byte.byte * list Byte.byte :=
  (take size unread, drop size unread).

(** The loop of [save_upload_file]: chunks of 1024 bytes are read and
    appended to the file until a read returns nothing.  [None] when the fuel
    is spent before that. *)
Fixpoint copy_chunks (fuel : nat) (unread written : list Byte.byte)
  : option (list Byte.byte) :=
  match fuel with
  | O => None
  | S fuel' =>
      let '(chunk, unread') := read_chunk 1024 unread in
      match chunk with
      | [] => Some written
      | _ :: _ => copy_chunks fuel' unread' (written ++ chunk)
      end
  end.

(** [save_upload_file]: the destination is opened with mode [wb], which
    creates or empties it, and receives the chunks. *)
Definition save_upload_file (fuel : nat) (content : list Byte.byte) (destination : string)
    (files : gmap string (list Byte.byte)) : option (gmap string (list Byte.byte)) :=
  match copy_chunks fuel content [] with
  | Some written => Some (<[destination := written]> files)
  | None => None
  end.

(** ** File names *)

(** Does the character [c] occur in [s]? *)
Fixpoint occurs (c : ascii) (s : string) : bool :=
  match s with
  | EmptyString => false
  | String a s' => Ascii.eqb a c || occurs c s'
  end.

(** ** The states the system can be in *)

(** The four values of [status]. *)
Definition status_values : list string := ["pending"; "processing"; "done"; "failed"].

(** A record as the two files leave it: [filename], [upload_time] and
    [status] are strings, [status] is one of the four values, and
    [thumbnail_filename], when present, is a non-empty string. *)
Definition doc_ok (doc : gmap string value) : Prop :=
  (exists filename, doc !! "filename" = Some (VStr filename))
  /\ (exists upload_time, doc !! "upload_time" = Some (VStr upload_time))
  /\ (exists status, doc !! "status" = Some (VStr status) /\ In status status_values)
  /\ thumbnail_field_ok doc = true.

(** A queued message belongs to a record: it has been retried at most three
    times and carries the path and stored name its record holds. *)
Definition message_ok (st : state) (m : message) : Prop :=
  (retries m <= 3)%nat
  /\ field st (video_id m) "file_path" = Some (VStr (video_path m))
  /\ field st (video_id m) "stored_filename" = Some (VStr (stored_filename m)).

(** Every record has an identifier that parses and is well formed. *)
Definition records_ok (env : Env) (st : state) : Prop :=
  forall id doc, videos st !! id = Some doc -> ObjectId_is_valid env id = true /\ doc_ok doc.

Definition system_ok (env : Env) (st : state) : Prop :=
  records_ok env st /\ (forall m, In m (queue st) -> message_ok st m).

(** The states reached from an empty system by uploads (the database giving
    each a fresh identifier that parses), executions of the first queued
    message by the worker, and the passing of time. *)
Inductive reachable (env : Env) (w : world) : state -> Prop :=
| reachable_empty n t :
    reachable env w (set_now t (idle n))
| reachable_upload st content_type filename uuid4 inserted_id new_task_id :
    reachable env w st ->
    videos st !! inserted_id = None ->
    ObjectId_is_valid env inserted_id = true ->
    reachable env w
      (exec (upload_video env content_type filename uuid4 inserted_id new_task_id) st)
| reachable_execute st m q :
    reachable env w st ->
    queue st = m :: q ->
    reachable env w (worker_execute env w m (set_queue q st))
| reachable_tick st t :
    reachable env w st ->
    now st <= t ->
    reachable env w (set_now t st).

(** The executions a queue can still cause: for each message the one it is
    waiting for and the retries it has left. *)
Fixpoint executions_left (q : list message) : nat :=
  match q with
  | [] => 0
  | m :: q' => S (3 - retries m) + executions_left q'
  end.

(** * Properties *)

(** ** The model on concrete inputs *)

Example str_Z_ex : str_Z 0 = "0" /\ str_Z 42 = "42" /\ str_Z (-7) = "-7".
Proof. repeat split. Qed.
Example fmt_ex : fmt_02d 5 = "05" /\ fmt_02d 123 = "123" /\ fmt_02d (-1) = "-1".
Proof. repeat split. Qed.
Example splitext_ex :
  splitext "a1b2.mp4" = ("a1b2", ".mp4") /\ splitext ".bashrc" = (".bashrc", "")
  /\ splitext "x.tar.gz" = ("x.tar", ".gz") /\ splitext "d.d/f" = ("d.d/f", "")
  /\ splitext "noext" = ("noext", "") /\ splitext "..a.b" = ("..a", ".b").
Proof. repeat split. Qed.
Example path_join_ex :
  path_join "./thumbnails" "thumb_a.jpg" = "./thumbnails/thumb_a.jpg"
  /\ path_join "t/" "x" = "t/x" /\ path_join "" "x" = "x".
Proof. repeat split. Qed.
Example dur_ex : option_map duration_str_of (float_value 0x1.d1bcccccccccdp+11%float) = Some "01:02:05".
Proof. vm_compute. reflexivity. Qed.
Example uploaded_ex :
  field uploaded id0 "status" = Some (VStr "pending")
  /\ field uploaded id0 "task_id" = Some (VStr "task-1")
  /\ field uploaded id0 "stored_filename" = Some (VStr "9f1c.mp4")
  /\ map video_path (queue uploaded) = ["./uploads/9f1c.mp4"].
Proof. vm_compute. repeat split. Qed.
Example run_ok_ex :
  let st := worker_loop env0 (world_ok "120.000000") 5 uploaded in
  field st id0 "status" = Some (VStr "done")
  /\ field st id0 "duration" = Some (VStr "00:02:00")
  /\ field st id0 "thumbnail_filename" = Some (VStr "thumb_9f1c.jpg")
  /\ starts (log st) = [(0%nat, 1000)].
Proof. vm_compute. repeat split. Qed.
Example run_fail_ex :
  let st := worker_loop env0 world_ffprobe_fails 10 uploaded in
  field st id0 "status" = Some (VStr "failed")
  /\ starts (log st) = [(0%nat, 1000); (1%nat, 1060); (2%nat, 1120); (3%nat, 1180)].
Proof. vm_compute. repeat split. Qed.

(** ** The duration text *)









(** ** Running the monad *)

Ltac run :=
  unfold mbind, M_bind, mret, M_ret, bind, ret, raise, lift, modify, get_state,
    try_except, exec in *; simpl in *.

Section Facts.
Context (env : Env) (w : world).

Lemma subprocess_run_eq cmd check st :
  subprocess_run w cmd check st =
    (match w (deliveries st) cmd with
     | NotRun e => inl e
     | Exited rc out err =>
         if check && negb (rc =? 0) then inl (CalledProcessError cmd rc)
         else inr {| returncode := rc; stdout := out; stderr := err |}
     end, emit (EvRun cmd) st).
Proof.
  unfold subprocess_run. run.
  destruct (w (deliveries st) cmd) as [rc out err|e]; [|reflexivity].
  destruct (check && negb (rc =? 0)); reflexivity.
Qed.

Lemma get_video_duration_try_eq video_path st :
  get_video_duration_try env w video_path st =
    ((get_video_duration_try env w video_path (idle (deliveries st))).1,
     emit (EvRun (ffprobe_cmd video_path)) st).
Proof.
  unfold get_video_duration_try, getitem, format_duration. run.
  rewrite !subprocess_run_eq. simpl.
  destruct (w (deliveries st) (ffprobe_cmd video_path)) as [rc out err|e]; [|reflexivity].
  simpl. destruct (negb (rc =? 0)) eqn:Hrc; [reflexivity|]. simpl. rewrite Hrc.
  destruct (json_loads env out) as [e|metadata]; [reflexivity|].
  destruct metadata; try reflexivity.
  destruct (dict_get "format" items) as [format|]; [|reflexivity].
  destruct format; try reflexivity.
  destruct (dict_get "duration" items0) as [duration|]; [|reflexivity].
  destruct (py_float env duration) as [e|d]; [reflexivity|].
  destruct (float_value d); reflexivity.
Qed.

Lemma get_video_duration_eq video_path st :
  get_video_duration env w video_path st =
    (duration_outcome env w (deliveries st) video_path,
     emit (EvRun (ffprobe_cmd video_path)) st).
Proof.
  unfold duration_outcome, get_video_duration, try_except.
  rewrite (get_video_duration_try_eq video_path st).
  rewrite (get_video_duration_try_eq video_path (idle _)). simpl.
  destruct (get_video_duration_try env w video_path (idle (deliveries st))).1 as [e|r];
    [|reflexivity].
  destruct e; reflexivity.
Qed.

Lemma generate_thumbnail_try_eq video_path output_path d st :
  generate_thumbnail_try env w video_path output_path d st =
    ((generate_thumbnail_try env w video_path output_path d (idle (deliveries st))).1,
     emit (EvRun (ffmpeg_cmd env video_path output_path (thumbnail_time_of d))) st).
Proof.
  unfold generate_thumbnail_try. run.
  rewrite !subprocess_run_eq. simpl.
  destruct (w (deliveries st) _) as [rc out err|e]; [|reflexivity].
  simpl. destruct (negb (rc =? 0)) eqn:Hrc; [reflexivity|]. simpl. rewrite Hrc. reflexivity.
Qed.

Lemma generate_thumbnail_eq video_path output_path d st :
  generate_thumbnail env w video_path output_path d st =
    (thumbnail_outcome env w (deliveries st) video_path output_path d,
     emit (EvRun (ffmpeg_cmd env video_path output_path (thumbnail_time_of d))) st).
Proof.
  unfold thumbnail_outcome, generate_thumbnail, try_except.
  rewrite (generate_thumbnail_try_eq video_path output_path d st).
  rewrite (generate_thumbnail_try_eq video_path output_path d (idle _)). simpl.
  destruct (generate_thumbnail_try env w video_path output_path d (idle (deliveries st))).1
    as [e|r]; [|reflexivity].
  destruct e; reflexivity.
Qed.

Lemma update_one_eq oid fields st :
  update_one oid fields st = (inr tt, exec (update_one oid fields) st).
Proof. reflexivity. Qed.

(** The handler of [process_video], for an identifier that parses. *)
Lemma process_video_except_eq self video_id e st :
  ObjectId_is_valid env video_id = true ->
  process_video_except env self video_id e st =
    let st1 :=
      exec (update_one video_id (failed_data (str_exn env e) (isoformat env (now st)))) st in
    let m := retry_message self (now st + 60) in
    if (3 <? S (retries self))%nat then (inl e, st1)
    else (inl (Retry 60), emit (EvSend m) (set_queue (queue st ++ [m]) st1)).
Proof.
  intros Hid. unfold process_video_except, ObjectId, Task_retry, utcnow_isoformat.
  rewrite Hid. run.
  destruct (3 <? S (retries self))%nat; reflexivity.
Qed.

(** One call of [process_video], for an identifier that parses. *)
Lemma process_video_eq self video_id video_path stored_filename st :
  ObjectId_is_valid env video_id = true ->
  process_video env w self video_id video_path stored_filename st =
    let st1 := exec (update_one video_id [("status", VStr "processing")]) st in
    let st2 := emit (EvRun (ffprobe_cmd video_path)) st1 in
    match duration_outcome env w (deliveries st) video_path with
    | inl e => process_video_except env self video_id e st2
    | inr (duration_str, duration_seconds) =>
        let thumbnail_filename := thumbnail_filename_of stored_filename in
        let thumbnail_path := path_join (THUMBNAIL_DIR env) thumbnail_filename in
        let st3 :=
          emit (EvRun (ffmpeg_cmd env video_path thumbnail_path
                         (thumbnail_time_of duration_seconds))) st2 in
        match thumbnail_outcome env w (deliveries st) video_path thumbnail_path
                duration_seconds with
        | inl e => process_video_except env self video_id e st3
        | inr _ =>
            (inr {| r_video_id := video_id; r_status := "done";
                    r_duration := duration_str;
                    r_thumbnail_filename := thumbnail_filename |},
             exec (update_one video_id
                     (update_data duration_str thumbnail_filename
                        (isoformat env (now st)))) st3)
        end
    end.
Proof.
  intros Hid. unfold process_video, process_video_try, ObjectId, utcnow_isoformat.
  rewrite Hid. run.
  rewrite get_video_duration_eq. simpl.
  destruct (duration_outcome env w (deliveries st) video_path) as [e|[duration_str d]];
    [reflexivity|].
  rewrite generate_thumbnail_eq. simpl.
  destruct (thumbnail_outcome env w (deliveries st) video_path _ d) as [e|b];
    reflexivity.
Qed.

(** With an identifier that does not parse, both [ObjectId] calls raise:
    the one of the [try] body and the one of the handler. *)
Lemma process_video_invalid_id self video_id video_path stored_filename st :
  ObjectId_is_valid env video_id = false ->
  process_video env w self video_id video_path stored_filename st =
    (inl (InvalidId env video_id), st).
Proof.
  intros Hid. unfold process_video, process_video_try, process_video_except, ObjectId.
  rewrite Hid. reflexivity.
Qed.
End Facts.

(** ** The collection under [update_one] *)

Lemma videos_update_one oid fields st id :
  videos (exec (update_one oid fields) st) !! id =
    if decide (oid = id) then set_fields fields <$> videos st !! id else videos st !! id.
Proof.
  unfold exec, update_one, modify. simpl. rewrite lookup_alter.
  destruct (decide (oid = id)) as [->|]; reflexivity.
Qed.

Lemma field_update_one id fields st key :
  field (exec (update_one id fields) st) id key =
    videos st !! id ≫= fun doc => set_fields fields doc !! key.
Proof.
  unfold field. rewrite videos_update_one, decide_True by reflexivity.
  destruct (videos st !! id); reflexivity.
Qed.

Lemma field_emit ev st id key : field (emit ev st) id key = field st id key.
Proof. reflexivity. Qed.

(** ** The done transition *)

Section DoneTransition.
Context (env : Env) (w : world).

(** C3 (as amended).  A call of [process_video] returns normally exactly
    when [get_video_duration] and [generate_thumbnail] both succeed.  It then
    has made two writes, the first setting [status] to [processing], and the
    second, after both tools ran, setting exactly the four fields [status],
    [duration] (the text), [thumbnail_filename] and [processed_time] (the
    instant of the call).  When the call raises, the record is not [done]. *)
Theorem done_after_both_steps self video_id video_path stored_filename st :
  ObjectId_is_valid env video_id = true ->
  let thumbnail_filename := thumbnail_filename_of stored_filename in
  let thumbnail_path := path_join (THUMBNAIL_DIR env) thumbnail_filename in
  match process_video env w self video_id video_path stored_filename st with
  | (inr r, st') =>
      exists duration_str duration_seconds ok,
        duration_outcome env w (deliveries st) video_path
          = inr (duration_str, duration_seconds)
        /\ thumbnail_outcome env w (deliveries st) video_path thumbnail_path
             duration_seconds = inr ok
        /\ log st' =
             EvUpdate video_id
               [("status", VStr "done");
                ("duration", VStr duration_str);
                ("thumbnail_filename", VStr thumbnail_filename);
                ("processed_time", VStr (isoformat env (now st)))]
             :: EvRun (ffmpeg_cmd env video_path thumbnail_path
                         (thumbnail_time_of duration_seconds))
             :: EvRun (ffprobe_cmd video_path)
             :: EvUpdate video_id [("status", VStr "processing")]
             :: log st
        /\ done_writes (log st') =
             ["status"; "duration"; "thumbnail_filename"; "processed_time"]
             :: done_writes (log st)
        /\ (is_Some (videos st !! video_id) ->
            field st' video_id "status" = Some (VStr "done")
            /\ field st' video_id "duration" = Some (VStr duration_str)
            /\ field st' video_id "thumbnail_filename" = Some (VStr thumbnail_filename)
            /\ field st' video_id "processed_time" = Some (VStr (isoformat env (now st))))
  | (inl e, st') =>
      (raises (duration_outcome env w (deliveries st) video_path) = true
       \/ exists duration_str duration_seconds,
            duration_outcome env w (deliveries st) video_path
              = inr (duration_str, duration_seconds)
            /\ raises (thumbnail_outcome env w (deliveries st) video_path
                         thumbnail_path duration_seconds) = true)
      /\ done_writes (log st') = done_writes (log st)
      /\ field st' video_id "status" <> Some (VStr "done")
  end.
Proof.
  intros Hid tf tp. rewrite process_video_eq by assumption. simpl.
  assert (Hexc : forall e st0,
    done_writes (log st0) = done_writes (log st) ->
    match process_video_except env self video_id e st0 with
    | (inr _, _) => False
    | (inl _, st') =>
        done_writes (log st') = done_writes (log st)
        /\ field st' video_id "status" <> Some (VStr "done")
    end).
  { intros e st0 Hlog. rewrite process_video_except_eq by assumption. simpl.
    destruct (3 <? S (retries self))%nat; simpl; (split; [exact Hlog|]);
      rewrite ?field_emit; unfold field; simpl; rewrite lookup_alter, decide_True by done;
      destruct (videos st0 !! video_id); simpl; [|discriminate| |discriminate];
      unfold set_fields; simpl; simplify_map_eq; discriminate. }
  destruct (duration_outcome env w (deliveries st) video_path)
    as [e|[duration_str d]] eqn:Hd.
  - specialize (Hexc e (emit (EvRun (ffprobe_cmd video_path))
        (exec (update_one video_id [("status", VStr "processing")]) st)) eq_refl).
    destruct (process_video_except env self video_id e _) as [[e'|r] st']; [|contradiction].
    split; [left; done | exact Hexc].
  - fold tf. fold tp.
    destruct (thumbnail_outcome env w (deliveries st) video_path tp d) as [e|ok] eqn:Ht.
    + specialize (Hexc e (emit (EvRun (ffmpeg_cmd env video_path tp (thumbnail_time_of d)))
        (emit (EvRun (ffprobe_cmd video_path))
           (exec (update_one video_id [("status", VStr "processing")]) st))) eq_refl).
      destruct (process_video_except env self video_id e _) as [[e'|r] st']; [|contradiction].
      split; [right; exists duration_str, d; split; [reflexivity | rewrite Ht; done]
             | exact Hexc].
    + exists duration_str, d, ok.
      split; [reflexivity|]. split; [exact Ht|]. do 2 (split; [reflexivity|]).
      intros [doc Hdoc]. unfold field. simpl.
      rewrite !lookup_alter, !decide_True by done. rewrite Hdoc. simpl.
      unfold set_fields. simpl. repeat split; simplify_map_eq; reflexivity.
Qed.
End DoneTransition.

Lemma done_after_both_steps_witness :
  let st' := exec (process_video env0 (world_ok "120.000000") msg0 id0
                     "./uploads/9f1c.mp4" "9f1c.mp4") uploaded in
  field st' id0 "status" = Some (VStr "done")
  /\ field st' id0 "duration" = Some (VStr "00:02:00")
  /\ field st' id0 "thumbnail_filename" = Some (VStr "thumb_9f1c.jpg")
  /\ field st' id0 "processed_time" = Some (VStr "T1000").
Proof.
  pose proof (done_after_both_steps env0 (world_ok "120.000000") msg0 id0
                "./uploads/9f1c.mp4" "9f1c.mp4" uploaded eq_refl) as H.
  cbv zeta in H. unfold exec.
  destruct (process_video env0 (world_ok "120.000000") msg0 id0
              "./uploads/9f1c.mp4" "9f1c.mp4" uploaded) as [[e|r] st'] eqn:E.
  - exfalso. vm_compute in E. discriminate.
  - destruct H as (s & d & ok & Hd & _ & _ & _ & Hf).
    vm_compute in Hd. injection Hd as <- _.
    apply Hf. vm_compute. eauto.
Defined.

(** C3 (as stated) fails: in the run of the uploaded video with both tools
    working, the only write that sets [status] to [done] does not set the
    fields the specification lists: it has no field for the duration in
    seconds. *)
Lemma done_write_lacks_duration_seconds :
  let st' := exec (process_video env0 (world_ok "120.000000") msg0 id0
                     "./uploads/9f1c.mp4" "9f1c.mp4") uploaded in
  ~ (exists keys, In keys (done_writes (log st'))
                  /\ forall k, In k spec_done_fields -> In k keys).
Proof.
  intros st' (keys & Hin & Hall).
  assert (Hd : done_writes (log st')
               = [["status"; "duration"; "thumbnail_filename"; "processed_time"]])
    by (vm_compute; reflexivity).
  rewrite Hd in Hin. destruct Hin as [<-|[]].
  specialize (Hall "duration_seconds"). simpl in Hall.
  destruct Hall as [H|[H|[H|[H|[]]]]]; [right; left; reflexivity | | | | ]; discriminate.
Qed.

(** ** One execution by the worker *)

Section Worker.
Context (env : Env) (w : world).

Lemma worker_execute_eq m st :
  ObjectId_is_valid env (video_id m) = true ->
  worker_execute env w m st =
    match duration_outcome env w (deliveries st) (video_path m) with
    | inl e => after_except env m e (probed m st)
    | inr (duration_str, d) =>
        match thumbnail_outcome env w (deliveries st) (video_path m)
                (thumbnail_path_of env m) d with
        | inl e => after_except env m e (thumbnailed env m d st)
        | inr _ =>
            set_deliveries (S (deliveries st))
              (emit (EvDone m SUCCESS)
                 (exec (update_one (video_id m)
                          (update_data duration_str
                             (thumbnail_filename_of (stored_filename m))
                             (isoformat env (Z.max (now st) (eta m)))))
                    (thumbnailed env m d st)))
        end
    end.
Proof.
  intros Hid. unfold worker_execute. rewrite process_video_eq by assumption. simpl.
  destruct (duration_outcome env w (deliveries st) (video_path m)) as [e|[duration_str d]].
  - rewrite process_video_except_eq by assumption. unfold after_except, probed. simpl.
    destruct (3 <? S (retries m))%nat; [|reflexivity]. destruct e; reflexivity.
  - fold (thumbnail_path_of env m).
    destruct (thumbnail_outcome env w (deliveries st) (video_path m) (thumbnail_path_of env m) d)
      as [e|ok]; [|reflexivity].
    rewrite process_video_except_eq by assumption. unfold after_except, thumbnailed, probed.
    simpl. destruct (3 <? S (retries m))%nat; [|reflexivity]. destruct e; reflexivity.
Qed.
End Worker.

Ltac field_of Hdoc :=
  unfold field, exec, update_one, modify; simpl;
  rewrite ?lookup_alter, ?decide_True by done; rewrite Hdoc; simpl;
  unfold set_fields, failed_data, update_data; simpl; simplify_map_eq; try reflexivity.

(** ** The failed transition *)

Section FailedTransition.
Context (env : Env) (w : world).

(** C4.  For a task whose identifier parses and whose record exists:
    (a) when either step raises [e], the call of [process_video] makes,
    after the [processing] write and the tool runs, exactly one more write,
    which sets [status] to [failed], [error_message] to [str(e)] and
    [processed_time] to the instant of the call, whether the task is then
    published again (fewer than three retries so far) or not;
    (b) when ffmpeg fails during the first execution of a message and both
    tools work during the second, the record is [failed] with the first
    instant after one execution and [done] with the second instant, sixty
    seconds later, after two. *)
Theorem failed_write_then_done m st doc :
  ObjectId_is_valid env (video_id m) = true ->
  videos st !! video_id m = Some doc ->
  let n := deliveries st in
  let id := video_id m in
  (forall e,
      (duration_outcome env w n (video_path m) = inl e
       \/ exists duration_str d,
            duration_outcome env w n (video_path m) = inr (duration_str, d)
            /\ thumbnail_outcome env w n (video_path m) (thumbnail_path_of env m) d = inl e) ->
      let st' := exec (process_video env w m id (video_path m) (stored_filename m)) st in
      (exists cmds,
          log st' =
            ((if (3 <? S (retries m))%nat then []
              else [EvSend (retry_message m (now st + 60))])
             ++ EvUpdate id [("status", VStr "failed");
                             ("error_message", VStr (str_exn env e));
                             ("processed_time", VStr (isoformat env (now st)))]
             :: map EvRun cmds
             ++ EvUpdate id [("status", VStr "processing")] :: log st)%list)
      /\ field st' id "status" = Some (VStr "failed")
      /\ field st' id "error_message" = Some (VStr (str_exn env e))
      /\ field st' id "processed_time" = Some (VStr (isoformat env (now st))))
  /\ (forall duration_str d e duration_str2 d2 ok,
      queue st = [m] ->
      (retries m < 3)%nat ->
      duration_outcome env w n (video_path m) = inr (duration_str, d) ->
      thumbnail_outcome env w n (video_path m) (thumbnail_path_of env m) d = inl e ->
      duration_outcome env w (S n) (video_path m) = inr (duration_str2, d2) ->
      thumbnail_outcome env w (S n) (video_path m) (thumbnail_path_of env m) d2 = inr ok ->
      let t := Z.max (now st) (eta m) in
      let st1 := worker_loop env w 1 st in
      let st2 := worker_loop env w 2 st in
      field st1 id "status" = Some (VStr "failed")
      /\ field st1 id "processed_time" = Some (VStr (isoformat env t))
      /\ queue st1 = [retry_message m (t + 60)]
      /\ field st2 id "status" = Some (VStr "done")
      /\ field st2 id "processed_time" = Some (VStr (isoformat env (t + 60)))
      /\ queue st2 = []
      /\ starts (log st2)
         = (starts (log st) ++ [(retries m, t); (S (retries m), t + 60)])%list).
Proof.
  intros Hid Hdoc n id. subst n id. split.
  - intros e He st'. subst st'. unfold exec at 1 2 3 4.
    rewrite process_video_eq by assumption. simpl.
    destruct He as [He|(duration_str & d & Hd & He)].
    + rewrite He, process_video_except_eq by assumption. simpl.
      destruct (3 <? S (retries m))%nat; simpl;
        (split; [exists [ffprobe_cmd (video_path m)]; reflexivity|]);
        repeat split; field_of Hdoc.
    + rewrite Hd. fold (thumbnail_path_of env m). rewrite He.
      rewrite process_video_except_eq by assumption. simpl.
      destruct (3 <? S (retries m))%nat; simpl;
        (split; [eexists [_; _]; reflexivity|]);
        repeat split; field_of Hdoc.
  - intros duration_str d e duration_str2 d2 ok Hq Hr Hd He Hd2 Hok t st1 st2.
    assert (Hlt : (3 <? S (retries m))%nat = false) by (apply Nat.ltb_ge; lia).
    assert (E1 : st1 = worker_execute env w m (set_queue [] st)).
    { subst st1. simpl. rewrite Hq. reflexivity. }
    assert (H1 : st1 = after_except env m e (thumbnailed env m d (set_queue [] st))).
    { rewrite E1, worker_execute_eq by assumption. simpl.
      rewrite Hd, He. reflexivity. }
    assert (Hq1 : queue st1 = [retry_message m (t + 60)]).
    { rewrite H1. unfold after_except. rewrite Hlt. reflexivity. }
    assert (H2 : st2 = worker_execute env w (retry_message m (t + 60)) (set_queue [] st1)).
    { subst st2. simpl. rewrite Hq, <- E1, Hq1. reflexivity. }
    rewrite worker_execute_eq in H2 by assumption.
    assert (Hn1 : deliveries (set_queue [] st1) = S (deliveries st)).
    { rewrite H1. unfold after_except. rewrite Hlt. reflexivity. }
    assert (Hnow1 : now st1 = t).
    { rewrite H1. unfold after_except. rewrite Hlt. reflexivity. }
    rewrite Hn1 in H2. simpl in H2. rewrite Hd2 in H2.
    change (thumbnail_path_of env (retry_message m (t + 60)))
      with (thumbnail_path_of env m) in H2.
    rewrite Hok in H2. simpl in H2. rewrite Hnow1 in H2.
    replace (Z.max t (t + 60)) with (t + 60) in H2 by lia.
    split; [|split; [|split; [exact Hq1|]]].
    + rewrite H1. unfold after_except. rewrite Hlt. field_of Hdoc.
    + rewrite H1. unfold after_except. rewrite Hlt. field_of Hdoc.
    + rewrite H2, H1. unfold after_except. rewrite Hlt.
      repeat split; try field_of Hdoc.
      unfold thumbnailed, probed. simpl. rewrite <- app_assoc. simpl.
      subst t. repeat f_equal. lia.
Qed.
End FailedTransition.

Lemma failed_write_then_done_witness :
  let st1 := worker_loop env0 world_ffmpeg_fails_once 1 uploaded in
  let st2 := worker_loop env0 world_ffmpeg_fails_once 2 uploaded in
  field st1 id0 "status" = Some (VStr "failed")
  /\ field st1 id0 "processed_time" = Some (VStr "T1000")
  /\ queue st1 = [retry_message msg0 1060]
  /\ field st2 id0 "status" = Some (VStr "done")
  /\ field st2 id0 "processed_time" = Some (VStr "T1060")
  /\ queue st2 = []
  /\ starts (log st2) = [(0%nat, 1000); (1%nat, 1060)].
Proof.
  destruct (failed_write_then_done env0 world_ffmpeg_fails_once msg0 uploaded
              (default ∅ (videos uploaded !! id0))) as [_ H].
  - reflexivity.
  - vm_compute. reflexivity.
  - apply (H "00:02:00" 120%float
             (Exception ("Failed to generate thumbnail: "
                         ++ str_exn env0
                              (CalledProcessError
                                 (ffmpeg_cmd env0 "./uploads/9f1c.mp4"
                                    "./thumbnails/thumb_9f1c.jpg" 12%float) 1)))
             "00:02:00" 120%float true).
    + reflexivity.
    + simpl. lia.
    + vm_compute. reflexivity.
    + vm_compute. reflexivity.
    + vm_compute. reflexivity.
    + vm_compute. reflexivity.
Defined.

(** ** The retry policy *)

Section RetryPolicy.
Context (env : Env) (w : world).

Lemma worker_loop_empty fuel st : queue st = [] -> worker_loop env w fuel st = st.
Proof. intros Hq. destruct fuel; simpl; [|rewrite Hq]; reflexivity. Qed.


End RetryPolicy.




(** ** The first write *)

Section ProcessingTransition.
Context (env : Env) (w : world).

End ProcessingTransition.


(** ** Failures of the duration step *)

Section DurationFailure.
Context (env : Env) (w : world).

(** What the [try] body of [get_video_duration] raises, by cause. *)
Lemma get_video_duration_try_causes video_path n :
  let cmd := ffprobe_cmd video_path in
  let raised := (get_video_duration_try env w video_path (idle n)).1 in
  (forall e, w n cmd = NotRun e -> raised = inl e)
  /\ (forall rc out err, w n cmd = Exited rc out err -> rc <> 0 ->
      raised = inl (CalledProcessError cmd rc))
  /\ (forall out err e, w n cmd = Exited 0 out err -> json_loads env out = inl e ->
      raised = inl e)
  /\ (forall out err items, w n cmd = Exited 0 out err ->
      json_loads env out = inr (JDict items) -> dict_get "format" items = None ->
      raised = inl (KeyError "format"))
  /\ (forall out err items items', w n cmd = Exited 0 out err ->
      json_loads env out = inr (JDict items) ->
      dict_get "format" items = Some (JDict items') ->
      dict_get "duration" items' = None ->
      raised = inl (KeyError "duration"))
  /\ (forall out err items items' duration e, w n cmd = Exited 0 out err ->
      json_loads env out = inr (JDict items) ->
      dict_get "format" items = Some (JDict items') ->
      dict_get "duration" items' = Some duration ->
      py_float env duration = inl e ->
      raised = inl e).
Proof.
  intros cmd raised. subst raised cmd. rewrite get_video_duration_try_eq. simpl.
  unfold get_video_duration_try, getitem. run. rewrite subprocess_run_eq. simpl.
  repeat split.
  - intros e ->. reflexivity.
  - intros rc out err -> Hrc. simpl.
    destruct (rc =? 0) eqn:E; [apply Z.eqb_eq in E; contradiction | reflexivity].
  - intros out err e -> He. simpl. rewrite He. reflexivity.
  - intros out err items -> Hj Hf. simpl. rewrite Hj. simpl. rewrite Hf. reflexivity.
  - intros out err items items' -> Hj Hf Hd. simpl. rewrite Hj. simpl. rewrite Hf. simpl.
    rewrite Hd. reflexivity.
  - intros out err items items' duration e -> Hj Hf Hd He. simpl. rewrite Hj. simpl.
    rewrite Hf. simpl. rewrite Hd. simpl. rewrite He. reflexivity.
Qed.

(** C7 (as amended).  When the [try] body of [get_video_duration] raises
    [e0], the call of [process_video] runs no further tool and writes
    [status = failed] with an [error_message] that is [str(e0)] unchanged,
    except when [e0] is the [CalledProcessError] of a non-zero exit: then it
    is ["Failed to extract duration: "] followed by [str(e0)].  A non-zero
    exit raises that [CalledProcessError]. *)
Theorem duration_failure_message m st doc e0 :
  ObjectId_is_valid env (video_id m) = true ->
  videos st !! video_id m = Some doc ->
  (get_video_duration_try env w (video_path m) (idle (deliveries st))).1 = inl e0 ->
  let st' := exec (process_video env w m (video_id m) (video_path m) (stored_filename m)) st in
  let error_message :=
    match e0 with
    | CalledProcessError _ _ => "Failed to extract duration: " ++ str_exn env e0
    | _ => str_exn env e0
    end in
  field st' (video_id m) "status" = Some (VStr "failed")
  /\ field st' (video_id m) "error_message" = Some (VStr error_message)
  /\ (exists sent,
        log st' =
          (sent ++ [EvUpdate (video_id m)
                      (failed_data error_message (isoformat env (now st)));
                    EvRun (ffprobe_cmd (video_path m));
                    EvUpdate (video_id m) [("status", VStr "processing")]]
           ++ log st)%list
        /\ forall cmd, ~ In (EvRun cmd) sent)
  /\ (forall rc out err,
        w (deliveries st) (ffprobe_cmd (video_path m)) = Exited rc out err -> rc <> 0 ->
        e0 = CalledProcessError (ffprobe_cmd (video_path m)) rc).
Proof.
  intros Hid Hdoc Htry st' error_message.
  assert (Hout : duration_outcome env w (deliveries st) (video_path m)
                 = inl (match e0 with
                        | CalledProcessError _ _ => Exception error_message
                        | _ => e0
                        end)).
  { unfold duration_outcome, get_video_duration, try_except.
    rewrite get_video_duration_try_eq. simpl. rewrite Htry. destruct e0; reflexivity. }
  assert (Hstr : str_exn env (match e0 with
                              | CalledProcessError _ _ => Exception error_message
                              | _ => e0
                              end) = error_message)
    by (destruct e0; reflexivity).
  subst st'. unfold exec at 1 2 3. rewrite process_video_eq by assumption. simpl.
  rewrite Hout, process_video_except_eq by assumption. simpl. rewrite Hstr.
  split; [|split; [|split]].
  - destruct (3 <? S (retries m))%nat; field_of Hdoc.
  - destruct (3 <? S (retries m))%nat; field_of Hdoc.
  - destruct (3 <? S (retries m))%nat; simpl.
    + exists []. split; [reflexivity|]. intros cmd [].
    + eexists [_]. split; [reflexivity|]. intros cmd [H|[]]. discriminate.
  - intros rc out err Hw Hrc.
    destruct (get_video_duration_try_causes (video_path m) (deliveries st))
      as (_ & Hexit & _).
    rewrite (Hexit rc out err Hw Hrc) in Htry. injection Htry as <-. reflexivity.
Qed.
End DurationFailure.

Lemma duration_failure_message_witness :
  let st' := exec (process_video env0 world_ffprobe_fails msg0 id0 "./uploads/9f1c.mp4"
                     "9f1c.mp4") uploaded in
  field st' id0 "status" = Some (VStr "failed")
  /\ field st' id0 "error_message"
     = Some (VStr ("Failed to extract duration: "
                   ++ str_exn env0 (CalledProcessError (ffprobe_cmd "./uploads/9f1c.mp4") 1))).
Proof.
  destruct (duration_failure_message env0 world_ffprobe_fails msg0 uploaded
              (video_doc "holiday.mp4" "9f1c.mp4" "./uploads/9f1c.mp4" "T1000"
               ∪ {["task_id" := VStr "task-1"]})
              (CalledProcessError (ffprobe_cmd "./uploads/9f1c.mp4") 1))
    as (Hs & He & _).
  - reflexivity.
  - vm_compute. reflexivity.
  - reflexivity.
  - split; [exact Hs | exact He].
Defined.

(** C7 (as stated) fails: when ffprobe exits with status 1, the text of the
    error that [subprocess.run] raised is not what is written to the record;
    the written message has a prefix before it. *)
Lemma process_error_message_not_verbatim :
  let path := "./uploads/9f1c.mp4" in
  let e0 := CalledProcessError (ffprobe_cmd path) 1 in
  let st' := exec (process_video env0 world_ffprobe_fails msg0 id0 path "9f1c.mp4") uploaded in
  (get_video_duration_try env0 world_ffprobe_fails path (idle 0)).1 = inl e0
  /\ field st' id0 "status" = Some (VStr "failed")
  /\ field st' id0 "error_message" <> Some (VStr (str_exn env0 e0)).
Proof.
  intros path e0 st'. split; [reflexivity|]. split; [vm_compute; reflexivity|].
  vm_compute. discriminate.
Qed.

(** ** The status after the pipeline *)

Section FinalStatus.
Context (env : Env) (w : world).

Lemma worker_execute_final m st :
  ObjectId_is_valid env (video_id m) = true ->
  is_Some (videos st !! video_id m) ->
  let st' := worker_execute env w m st in
  final_status st' (video_id m)
  /\ (queue st' = queue st
      \/ exists m', queue st' = (queue st ++ [m'])%list /\ video_id m' = video_id m).
Proof.
  intros Hid [doc Hdoc] st'. subst st'. rewrite worker_execute_eq by assumption.
  unfold final_status.
  destruct (duration_outcome env w (deliveries st) (video_path m)) as [e|[duration_str d]].
  - unfold after_except. destruct (3 <? S (retries m))%nat; simpl.
    + split; [right; field_of Hdoc | left; reflexivity].
    + split; [right; field_of Hdoc | right; eexists; split; reflexivity].
  - destruct (thumbnail_outcome env w (deliveries st) (video_path m)
                (thumbnail_path_of env m) d) as [e|ok].
    + unfold after_except. destruct (3 <? S (retries m))%nat; simpl.
      * split; [right; field_of Hdoc | left; reflexivity].
      * split; [right; field_of Hdoc | right; eexists; split; reflexivity].
    + split; [left; field_of Hdoc | left; reflexivity].
Qed.

Lemma worker_loop_final id fuel : forall st,
  ObjectId_is_valid env id = true ->
  final_status st id ->
  Forall (fun m => video_id m = id) (queue st) ->
  final_status (worker_loop env w fuel st) id.
Proof.
  induction fuel as [|fuel IH]; intros st Hid Hfin Hq; simpl; [assumption|].
  destruct (queue st) as [|m q] eqn:Eq; [assumption|].
  apply Forall_cons in Hq as [Hm Hq]. subst id.
  assert (Hsome : is_Some (videos (set_queue q st) !! video_id m)).
  { destruct Hfin as [H|H]; unfold field in H; simpl;
      destruct (videos st !! video_id m); try discriminate; eauto. }
  destruct (worker_execute_final m (set_queue q st) Hid Hsome) as [Hf Hq'].
  apply IH; [assumption | assumption |].
  destruct Hq' as [->|(m' & -> & Hm')]; simpl; [assumption|].
  apply Forall_app. split; [assumption|]. constructor; [assumption | constructor].
Qed.

(** C8.  For a job whose identifier parses and whose record exists, once
    the worker has executed it at least once (one execution, or all of them
    until the queue is empty), the [status] of the record is [done] or
    [failed]; it is neither [pending] nor [processing]. *)
Theorem status_final_after_pipeline m st fuel :
  ObjectId_is_valid env (video_id m) = true ->
  is_Some (videos st !! video_id m) ->
  queue st = [m] ->
  let st' := worker_loop env w (S fuel) st in
  (field st' (video_id m) "status" = Some (VStr "done")
   \/ field st' (video_id m) "status" = Some (VStr "failed"))
  /\ field st' (video_id m) "status" <> Some (VStr "pending")
  /\ field st' (video_id m) "status" <> Some (VStr "processing").
Proof.
  intros Hid Hsome Hq st'.
  assert (Hfin : final_status st' (video_id m)).
  { subst st'. simpl. rewrite Hq.
    destruct (worker_execute_final m (set_queue [] st) Hid Hsome) as [Hf Hq'].
    apply worker_loop_final; [assumption | assumption |].
    destruct Hq' as [->|(m' & -> & Hm')]; simpl; repeat constructor. assumption. }
  split; [exact Hfin|].
  destruct Hfin as [H|H]; rewrite H; split; discriminate.
Qed.
End FinalStatus.

Lemma status_final_after_pipeline_witness :
  let st' := worker_loop env0 world_ffmpeg_fails_once 1 uploaded in
  (field st' id0 "status" = Some (VStr "done")
   \/ field st' id0 "status" = Some (VStr "failed"))
  /\ field st' id0 "status" <> Some (VStr "pending")
  /\ field st' id0 "status" <> Some (VStr "processing").
Proof.
  apply (status_final_after_pipeline env0 world_ffmpeg_fails_once msg0 uploaded 0).
  - reflexivity.
  - vm_compute. eauto.
  - reflexivity.
Defined.

(** ** The read endpoints *)

Section ReadEndpoints.
Context (env : Env).

Lemma set_fields_thumbnail_ok fields doc :
  thumbnail_field_ok doc = true ->
  Forall (fun kv => kv.1 = "thumbnail_filename" -> truthy kv.2 = true) fields ->
  thumbnail_field_ok (set_fields fields doc) = true.
Proof.
  unfold set_fields. revert doc.
  induction fields as [|[k v] fields IH]; intros doc Hdoc Hall; simpl; [assumption|].
  apply Forall_cons in Hall as [Hkv Hall]. apply IH; [|assumption].
  unfold thumbnail_field_ok. simpl in *.
  destruct (decide (k = "thumbnail_filename")) as [->|Hne].
  - rewrite lookup_insert_eq. auto.
  - rewrite lookup_insert_ne by assumption. exact Hdoc.
Qed.

Lemma update_one_store_ok oid fields st :
  store_ok st ->
  Forall (fun kv => kv.1 = "thumbnail_filename" -> truthy kv.2 = true) fields ->
  store_ok (exec (update_one oid fields) st).
Proof.
  intros Hok Hall id doc. rewrite videos_update_one.
  destruct (decide (oid = id)) as [->|]; [|apply Hok].
  destruct (videos st !! id) as [doc0|] eqn:E; simpl; [|discriminate].
  intros [= <-]. apply set_fields_thumbnail_ok; [eapply Hok, E | assumption].
Qed.

(** The invariant holds of the empty collection and is kept by an
    execution of the worker. *)
Lemma worker_execute_store_ok w m st :
  store_ok st -> store_ok (worker_execute env w m st).
Proof.
  intros Hok.
  destruct (ObjectId_is_valid env (video_id m)) eqn:Hid.
  - rewrite worker_execute_eq by assumption.
    assert (H1 : store_ok (probed m st)).
    { unfold probed. apply (update_one_store_ok _ _ (emit _ (set_now _ st))); [exact Hok|].
      repeat constructor; simpl; discriminate. }
    assert (Hexc : forall e st0, store_ok st0 -> store_ok (after_except env m e st0)).
    { intros e st0 H0. unfold after_except.
      assert (H2 : store_ok (exec (update_one (video_id m)
                      (failed_data (str_exn env e) (isoformat env (now st0)))) st0)).
      { apply update_one_store_ok; [exact H0|]. repeat constructor; simpl; discriminate. }
      destruct (3 <? S (retries m))%nat; exact H2. }
    destruct (duration_outcome env w (deliveries st) (video_path m)) as [e|[s d]];
      [apply Hexc, H1|].
    destruct (thumbnail_outcome env w (deliveries st) (video_path m) _ d) as [e|ok];
      [apply Hexc, H1|].
    apply (update_one_store_ok _ _ (thumbnailed env m d st)); [exact H1|].
    repeat constructor; simpl; try discriminate.
  - unfold worker_execute. rewrite process_video_invalid_id by assumption. exact Hok.
Qed.

Lemma upload_video_store_ok content_type filename uuid4 inserted_id new_task_id st :
  store_ok st ->
  store_ok (exec (upload_video env content_type filename uuid4 inserted_id new_task_id) st).
Proof.
  intros Hok. unfold exec, upload_video, utcnow_isoformat. run.
  destruct (match content_type with
            | Some ct => negb (String.prefix "video/" ct)
            | None => true
            end); simpl; [exact Hok|].
  intros id doc. unfold emit, set_videos. simpl. rewrite lookup_alter.
  destruct (decide (inserted_id = id)) as [->|Hne].
  - rewrite lookup_insert_eq. simpl. intros [= <-]. reflexivity.
  - rewrite lookup_insert_ne by assumption. apply Hok.
Qed.

(** C9.  [get_video_status] and [get_video_metadata] leave the whole
    state (collection, queue, clock, log) as it was, for every identifier.
    For an identifier that parses and has a record, the first returns the
    stored [status]; the second returns the stored [filename],
    [upload_time], [status] and [duration], and a thumbnail URL that is
    ["/thumbnails/"] followed by the stored [thumbnail_filename] when the
    record has this field, and nothing when it has not. *)
Theorem read_endpoints_are_pure video_id st doc filename upload_time status :
  ObjectId_is_valid env video_id = true ->
  videos st !! video_id = Some doc ->
  doc !! "filename" = Some (VStr filename) ->
  doc !! "upload_time" = Some (VStr upload_time) ->
  doc !! "status" = Some (VStr status) ->
  thumbnail_field_ok doc = true ->
  (forall id, exec (get_video_status env id) st = st)
  /\ (forall id, exec (get_video_metadata env id) st = st)
  /\ (get_video_status env video_id st).1 = inr {| vs_id := video_id; vs_status := status |}
  /\ (exists thumbnail_url,
        (get_video_metadata env video_id st).1 =
          inr {| vm_id := video_id; vm_filename := filename;
                 vm_upload_time := upload_time; vm_status := status;
                 vm_duration := field_optional_str (doc_get doc "duration");
                 vm_thumbnail_url := thumbnail_url |}
        /\ (is_Some thumbnail_url <-> is_Some (doc !! "thumbnail_filename"))
        /\ (forall f, doc !! "thumbnail_filename" = Some (VStr f) ->
            thumbnail_url = Some ("/thumbnails/" ++ f))).
Proof.
  intros Hid Hdoc Hf Hu Hs Hok. split; [|split; [|split]].
  - intros id. unfold exec, get_video_status, find_one, doc_getitem, field_str. run.
    destruct (negb (ObjectId_is_valid env id)); [reflexivity|]. simpl.
    destruct (videos st !! id) as [d|]; [|reflexivity].
    repeat (simpl; match goal with
                   | |- context [match ?x !! ?k with _ => _ end] =>
                       destruct (x !! k) as [[|?]|]
                   | |- context [match ValidationError ?e ?n with _ => _ end] =>
                       destruct (ValidationError e n)
                   end); reflexivity.
  - intros id. unfold exec, get_video_metadata, find_one, doc_getitem, doc_get, field_str.
    run.
    destruct (negb (ObjectId_is_valid env id)); [reflexivity|]. simpl.
    destruct (videos st !! id) as [d|]; [|reflexivity].
    repeat (simpl; match goal with
                   | |- context [match ?x !! ?k with _ => _ end] =>
                       destruct (x !! k) as [[|?]|]
                   | |- context [match ValidationError ?e ?n with _ => _ end] =>
                       destruct (ValidationError e n)
                   | |- context [if negb ?b then _ else _] => destruct b
                   end); reflexivity.
  - unfold get_video_status, find_one, doc_getitem, field_str. run.
    rewrite Hid. simpl. rewrite Hdoc, Hs. reflexivity.
  - unfold get_video_metadata, find_one, doc_getitem, doc_get, field_str. run.
    rewrite Hid. simpl. rewrite Hdoc. unfold thumbnail_field_ok in Hok.
    destruct (doc !! "thumbnail_filename") as [v|] eqn:Ht.
    + rewrite Hok. simpl. rewrite Hf, Hu, Hs. simpl.
      destruct v as [|f]; [discriminate|]. simpl.
      eexists. split; [reflexivity|]. split; [split; eauto|].
      intros f' [= <-]. reflexivity.
    + simpl. rewrite Hf, Hu, Hs. simpl.
      eexists. split; [reflexivity|]. split; [|discriminate].
      split; intros [x Hx]; discriminate.
Qed.
End ReadEndpoints.

Lemma read_endpoints_are_pure_witness :
  exec (get_video_status env0 id0) processed = processed
  /\ exec (get_video_metadata env0 id0) processed = processed
  /\ (get_video_status env0 id0 processed).1 = inr {| vs_id := id0; vs_status := "done" |}
  /\ (get_video_metadata env0 id0 processed).1 =
       inr {| vm_id := id0; vm_filename := "holiday.mp4"; vm_upload_time := "T1000";
              vm_status := "done"; vm_duration := Some "00:02:00";
              vm_thumbnail_url := Some "/thumbnails/thumb_9f1c.jpg" |}.
Proof.
  destruct (read_endpoints_are_pure env0 id0 processed
              (default ∅ (videos processed !! id0)) "holiday.mp4" "T1000" "done")
    as (H1 & H2 & H3 & url & H4 & _ & H6).
  - reflexivity.
  - vm_compute. reflexivity.
  - vm_compute. reflexivity.
  - vm_compute. reflexivity.
  - vm_compute. reflexivity.
  - vm_compute. reflexivity.
  - split; [apply H1|]. split; [apply H2|]. split; [exact H3|].
    rewrite H4, (H6 "thumb_9f1c.jpg") by (vm_compute; reflexivity).
    vm_compute. reflexivity.
Defined.

(** ** The return-code test after [subprocess.run] *)

Section ReturnCodeGuard.
Context (env : Env) (w : world).

(** Without [check=True] a non-zero return code does come back to the
    caller. *)
Lemma subprocess_run_unchecked cmd st rc out err :
  w (deliveries st) cmd = Exited rc out err ->
  (subprocess_run w cmd false st).1
    = inr {| returncode := rc; stdout := out; stderr := err |}.
Proof. intros Hw. rewrite subprocess_run_eq, Hw. reflexivity. Qed.

(** C10.  [subprocess.run] with [check=True] raises [CalledProcessError]
    on every non-zero exit, so every result it returns has return code 0.
    The test of the return code that follows the call in
    [get_video_duration] is therefore never true: the [try] body behaves, in
    every state, as the same body without that test, and the JSON reader is
    only ever given the output of a process that exited with code 0. *)
Theorem returncode_branch_unreachable video_path st :
  let cmd := ffprobe_cmd video_path in
  (forall rc out err, w (deliveries st) cmd = Exited rc out err -> rc <> 0 ->
     subprocess_run w cmd true st = (inl (CalledProcessError cmd rc), emit (EvRun cmd) st))
  /\ (forall result st1, subprocess_run w cmd true st = (inr result, st1) ->
        returncode result = 0
        /\ (if negb (returncode result =? 0)
            then raise (Exception ("FFprobe failed: " ++ stderr result))
            else mret tt) st1 = (inr tt, st1)
        /\ exists err, w (deliveries st) cmd = Exited 0 (stdout result) err)
  /\ get_video_duration_try env w video_path st =
       (result ← subprocess_run w cmd true;
        metadata ← lift (json_loads env (stdout result));
        format ← getitem env metadata "format";
        duration ← getitem env format "duration";
        duration_seconds ← lift (py_float env duration);
        duration_str ← format_duration duration_seconds;
        mret (duration_str, duration_seconds)) st.
Proof.
  intros cmd. split; [|split].
  - intros rc out err Hw Hrc. rewrite subprocess_run_eq, Hw. simpl.
    destruct (rc =? 0) eqn:E; [apply Z.eqb_eq in E; contradiction | reflexivity].
  - intros result st1. rewrite subprocess_run_eq.
    destruct (w (deliveries st) cmd) as [rc out err|e]; [|discriminate]. simpl.
    destruct (rc =? 0) eqn:E; simpl; [|discriminate].
    intros [= <- <-]. simpl. rewrite E. apply Z.eqb_eq in E. subst rc. eauto.
  - unfold get_video_duration_try. fold cmd. run. rewrite subprocess_run_eq.
    destruct (w (deliveries st) cmd) as [rc out err|e]; [|reflexivity]. simpl.
    destruct (rc =? 0) eqn:E; simpl; [rewrite E|]; reflexivity.
Qed.
End ReturnCodeGuard.

(** ** The thumbnail command *)

Lemma substring_all p : substring 0 (String.length p) p = p.
Proof. induction p as [|c p IH]; simpl; [reflexivity | now rewrite IH]. Qed.

Lemma substring_split p : forall n,
  substring 0 n p ++ substring n (String.length p - n) p = p.
Proof.
  induction p as [|c p IH]; intros [|n]; simpl; try reflexivity.
  - now rewrite substring_all.
  - change (String c (substring 0 n p ++ substring n (String.length p - n) p) = String c p).
    now rewrite IH.
Qed.

Lemma append_empty_r (s : string) : s ++ "" = s.
Proof.
  induction s as [|c s IH]; [reflexivity|].
  change (String c (s ++ "") = String c s). now rewrite IH.
Qed.

(** [root + ext == path], as the documentation of [os.path.splitext] says. *)
Lemma splitext_append p : (splitext p).1 ++ (splitext p).2 = p.
Proof.
  unfold splitext.
  destruct ((rfind "/" p <? rfind "." p) && _); simpl;
    [apply substring_split | apply append_empty_r].
Qed.

Section ThumbnailCommand.
Context (env : Env) (w : world).

(** C5.  Whenever the duration step of a call of [process_video] succeeds
    with duration [d], the call runs ffmpeg exactly with: the input path;
    [-ss] followed by the text of the binary64 product [d * 0.1]; the filter
    [scale=320:240]; and, as output, [THUMBNAIL_DIR] joined with
    [thumb_<stem>.jpg], where [stem] is the stored filename without its
    extension.  For [d = 100.0] the product is [10.0]. *)
Theorem thumbnail_invocation self video_id video_path stored_filename st duration_str d :
  ObjectId_is_valid env video_id = true ->
  duration_outcome env w (deliveries st) video_path = inr (duration_str, d) ->
  let st' := exec (process_video env w self video_id video_path stored_filename) st in
  let stem := (splitext stored_filename).1 in
  let output_path := path_join (THUMBNAIL_DIR env) ("thumb_" ++ stem ++ ".jpg") in
  let thumbnail_time := PrimFloat.mul d 0x1.999999999999ap-4 in
  In (EvRun ["ffmpeg"; "-i"; video_path; "-ss"; str_float env thumbnail_time;
             "-vframes"; "1"; "-vf"; "scale=320:240"; "-q:v"; "2"; "-y"; output_path])
     (log st')
  /\ stem ++ (splitext stored_filename).2 = stored_filename
  /\ thumbnail_time_of 100 = 10%float
  /\ (d = 100%float -> thumbnail_time = 10%float).
Proof.
  intros Hid Hd st' stem output_path thumbnail_time.
  split; [|split; [apply splitext_append | split; [reflexivity | intros ->; reflexivity]]].
  subst st'. unfold exec. rewrite process_video_eq by assumption. simpl. rewrite Hd.
  destruct (thumbnail_outcome env w (deliveries st) video_path _ d) as [e|ok].
  - rewrite process_video_except_eq by assumption. simpl.
    destruct (3 <? S (retries self))%nat; simpl; tauto.
  - simpl. tauto.
Qed.
End ThumbnailCommand.

Lemma thumbnail_invocation_witness :
  let st' := exec (process_video env0 (world_ok "100.000000") msg0 id0 "./uploads/9f1c.mp4"
                     "9f1c.mp4") uploaded in
  In (EvRun ["ffmpeg"; "-i"; "./uploads/9f1c.mp4"; "-ss"; "10.0";
             "-vframes"; "1"; "-vf"; "scale=320:240"; "-q:v"; "2"; "-y";
             "./thumbnails/thumb_9f1c.jpg"])
     (log st')
  /\ "9f1c" ++ ".mp4" = "9f1c.mp4"
  /\ thumbnail_time_of 100 = 10%float
  /\ (100%float = 100%float -> PrimFloat.mul 100 0x1.999999999999ap-4 = 10%float).
Proof.
  apply (thumbnail_invocation env0 (world_ok "100.000000") msg0 id0 "./uploads/9f1c.mp4"
           "9f1c.mp4" uploaded "00:01:40" 100%float).
  - reflexivity.
  - vm_compute. reflexivity.
Defined.

(** * Further properties of the two files *)

(** ** What one execution changes *)

Lemma touches_only_refl id keys st : touches_only id keys st st.
Proof. repeat split. Qed.

Lemma touches_only_trans id keys st1 st2 st3 :
  touches_only id keys st1 st2 -> touches_only id keys st2 st3 ->
  touches_only id keys st1 st3.
Proof.
  intros (A1 & B1 & C1) (A2 & B2 & C2). repeat split.
  - intros id' Hne. rewrite A2, A1 by assumption. reflexivity.
  - intros key Hk. rewrite B2, B1 by assumption. reflexivity.
  - rewrite C2, C1. reflexivity.
Qed.

Lemma touches_only_videos id keys st st' :
  videos st' = videos st -> touches_only id keys st st'.
Proof. intros H. unfold touches_only, field. rewrite H. repeat split. Qed.

Lemma set_fields_other fields (doc : gmap string value) key :
  ~ In key (map fst fields) -> set_fields fields doc !! key = doc !! key.
Proof.
  unfold set_fields. revert doc.
  induction fields as [|[k v] fields IH]; intros doc Hk; simpl; [reflexivity|].
  simpl in Hk. rewrite IH by tauto. apply lookup_insert_ne. intros ->. tauto.
Qed.

Lemma update_one_touches_only id keys fields st :
  (forall k, In k (map fst fields) -> In k keys) ->
  touches_only id keys st (exec (update_one id fields) st).
Proof.
  intros Hsub. repeat split.
  - intros id' Hne. rewrite videos_update_one, decide_False by congruence. reflexivity.
  - intros key Hk. rewrite field_update_one. unfold field.
    destruct (videos st !! id) as [doc|]; simpl; [|reflexivity].
    apply set_fields_other. intros Hin. apply Hk, Hsub, Hin.
  - unfold exec, update_one, modify. simpl. apply dom_alter_L.
Qed.

Section Frame.
Context (env : Env) (w : world).

Lemma after_except_touches_only m e st :
  touches_only (video_id m) pipeline_fields st (after_except env m e st).
Proof.
  eapply touches_only_trans;
    [apply (update_one_touches_only _ _
              (failed_data (str_exn env e) (isoformat env (now st))))|].
  - simpl. unfold pipeline_fields. simpl. tauto.
  - apply touches_only_videos. unfold after_except.
    destruct (3 <? S (retries m))%nat; reflexivity.
Qed.

Lemma probed_touches_only m st :
  touches_only (video_id m) pipeline_fields st (probed m st).
Proof.
  unfold probed.
  eapply touches_only_trans; [|apply touches_only_videos; reflexivity].
  eapply touches_only_trans; [apply touches_only_videos; reflexivity|].
  apply (update_one_touches_only _ _ [("status", VStr "processing")]
           (emit _ (set_now _ st))).
  simpl. unfold pipeline_fields. simpl. tauto.
Qed.

(** X1.  One execution by the worker, whatever the tools do and whether or
    not the identifier parses, changes nothing but the fields [status],
    [duration], [thumbnail_filename], [processed_time] and [error_message] of
    the record of its own video: every other record, and every other field
    of that record ([filename], [stored_filename], [file_path],
    [upload_time], [task_id], [thumbnail_url]), is as before, and no record
    is created or deleted. *)
Theorem worker_execute_frame m st :
  touches_only (video_id m) pipeline_fields st (worker_execute env w m st).
Proof.
  destruct (ObjectId_is_valid env (video_id m)) eqn:Hid.
  - rewrite worker_execute_eq by assumption.
    destruct (duration_outcome env w (deliveries st) (video_path m)) as [e|[s d]].
    + eapply touches_only_trans; [apply probed_touches_only | apply after_except_touches_only].
    + assert (Ht : touches_only (video_id m) pipeline_fields st (thumbnailed env m d st)).
      { eapply touches_only_trans;
          [apply probed_touches_only | apply touches_only_videos; reflexivity]. }
      destruct (thumbnail_outcome env w (deliveries st) (video_path m) _ d) as [e|ok].
      * eapply touches_only_trans; [exact Ht | apply after_except_touches_only].
      * eapply touches_only_trans; [exact Ht|].
        eapply touches_only_trans; [|apply touches_only_videos; reflexivity].
        apply update_one_touches_only. simpl. unfold pipeline_fields. simpl. tauto.
  - unfold worker_execute. rewrite process_video_invalid_id by assumption.
    apply touches_only_videos. reflexivity.
Qed.

(** X2.  The worker never creates or deletes a record: after any number of
    executions, of any messages, the collection has the same identifiers. *)
Theorem worker_loop_keeps_records fuel : forall st,
  dom (videos (worker_loop env w fuel st)) = dom (videos st).
Proof.
  induction fuel as [|fuel IH]; intros st; simpl; [reflexivity|].
  destruct (queue st) as [|m q]; [reflexivity|].
  rewrite IH. destruct (worker_execute_frame m (set_queue q st)) as (_ & _ & Hdom).
  exact Hdom.
Qed.
End Frame.

Section Bound.
Context (env : Env) (w : world).

Lemma worker_execute_queue m st :
  queue st = [] ->
  let st' := worker_execute env w m st in
  deliveries st' = S (deliveries st)
  /\ (queue st' = []
      \/ (retries m < 3)%nat /\ exists t, queue st' = [retry_message m t]).
Proof.
  intros Hq st'. subst st'.
  destruct (ObjectId_is_valid env (video_id m)) eqn:Hid.
  - rewrite worker_execute_eq by assumption.
    assert (Hexc : forall e st0, queue st0 = [] -> deliveries st0 = deliveries st ->
      deliveries (after_except env m e st0) = S (deliveries st)
      /\ (queue (after_except env m e st0) = []
          \/ (retries m < 3)%nat
             /\ exists t, queue (after_except env m e st0) = [retry_message m t])).
    { intros e st0 Hq0 Hn0. unfold after_except.
      destruct (3 <? S (retries m))%nat eqn:Hlt; simpl; rewrite Hn0, ?Hq0.
      - split; [reflexivity | left; reflexivity].
      - apply Nat.ltb_ge in Hlt. split; [reflexivity|]. right. split; [lia|]. eauto. }
    destruct (duration_outcome env w (deliveries st) (video_path m)) as [e|[s d]];
      [apply Hexc; [exact Hq | reflexivity]|].
    destruct (thumbnail_outcome env w (deliveries st) (video_path m) _ d) as [e|ok];
      [apply Hexc; [exact Hq | reflexivity]|].
    simpl. split; [reflexivity | left; exact Hq].
  - unfold worker_execute. rewrite process_video_invalid_id by assumption. simpl.
    split; [reflexivity | left; exact Hq].
Qed.

Lemma worker_execute_starts m st :
  starts (log (worker_execute env w m st))
    = (starts (log st) ++ [(retries m, Z.max (now st) (eta m))])%list.
Proof.
  destruct (ObjectId_is_valid env (video_id m)) eqn:Hid.
  - rewrite worker_execute_eq by assumption.
    destruct (duration_outcome env w (deliveries st) (video_path m)) as [e|[s d]].
    + unfold after_except. destruct (3 <? S (retries m))%nat; reflexivity.
    + destruct (thumbnail_outcome env w (deliveries st) (video_path m) _ d) as [e|ok];
        [|reflexivity].
      unfold after_except. destruct (3 <? S (retries m))%nat; reflexivity.
  - unfold worker_execute. rewrite process_video_invalid_id by assumption. reflexivity.
Qed.

Lemma job_drains k : forall m st fuel,
  queue st = [m] ->
  (3 - retries m <= k)%nat ->
  (S k <= fuel)%nat ->
  let st' := worker_loop env w fuel st in
  queue st' = []
  /\ exists n, (1 <= n <= S k)%nat
       /\ deliveries st' = (deliveries st + n)%nat
       /\ length (starts (log st')) = (length (starts (log st)) + n)%nat.
Proof.
  induction k as [|k IH]; intros m st fuel Hq Hk Hfuel;
    (destruct fuel as [|fuel]; [lia|]); simpl; rewrite Hq;
    pose proof (worker_execute_starts m (set_queue [] st)) as Hs;
    apply (f_equal (@length _)) in Hs; rewrite length_app in Hs; simpl in Hs;
    destruct (worker_execute_queue m (set_queue [] st) eq_refl) as [Hn [Hq1|(Hr & t & Hq1)]];
    simpl in Hn.
  - rewrite worker_loop_empty by assumption. split; [assumption|].
    exists 1%nat. repeat split; lia.
  - lia.
  - rewrite worker_loop_empty by assumption. split; [assumption|].
    exists 1%nat. repeat split; lia.
  - destruct (IH (retry_message m t) (worker_execute env w m (set_queue [] st)) fuel)
      as (Hq' & n & Hn1 & Hn2 & Hn3); [assumption | simpl; lia | lia |].
    split; [assumption|]. exists (S n). repeat split; lia.
Qed.

(** X3.  Whatever the tools, the environment and the identifier are, a job
    leaves the queue after at most four executions: from a queue that holds
    one message, never retried before, the worker loop given fuel for four
    executions ends with an empty queue, having started the task at least
    once and at most four times. *)
Theorem job_executed_at_most_four_times m st fuel :
  queue st = [m] ->
  retries m = 0%nat ->
  (4 <= fuel)%nat ->
  let st' := worker_loop env w fuel st in
  queue st' = []
  /\ exists n, (1 <= n <= 4)%nat
       /\ deliveries st' = (deliveries st + n)%nat
       /\ length (starts (log st')) = (length (starts (log st)) + n)%nat.
Proof.
  intros Hq Hr Hfuel. apply (job_drains 3 m); [assumption | lia | lia].
Qed.
End Bound.

Lemma job_executed_at_most_four_times_witness :
  let st' := worker_loop env0 world_ffmpeg_fails_once 4 uploaded in
  queue st' = []
  /\ exists n, (1 <= n <= 4)%nat
       /\ deliveries st' = (deliveries uploaded + n)%nat
       /\ length (starts (log st')) = (length (starts (log uploaded)) + n)%nat.
Proof.
  apply (job_executed_at_most_four_times env0 world_ffmpeg_fails_once msg0 uploaded 4).
  - reflexivity.
  - reflexivity.
  - lia.
Defined.

Section StaleError.
Context (env : Env) (w : world).

(** X4.  The write of the [done] transition does not clear an earlier
    failure: when an execution succeeds, the [error_message] of the record is
    what it was before the execution, so a record that failed and was then
    retried with success is [done] and still carries the message of the
    failed attempt. *)
Theorem done_write_keeps_error_message m st duration_str d ok :
  ObjectId_is_valid env (video_id m) = true ->
  duration_outcome env w (deliveries st) (video_path m) = inr (duration_str, d) ->
  thumbnail_outcome env w (deliveries st) (video_path m) (thumbnail_path_of env m) d = inr ok ->
  let st' := worker_execute env w m st in
  field st' (video_id m) "error_message" = field st (video_id m) "error_message"
  /\ (is_Some (videos st !! video_id m) ->
      field st' (video_id m) "status" = Some (VStr "done")).
Proof.
  intros Hid Hd Ht st'. subst st'. rewrite worker_execute_eq, Hd, Ht by assumption.
  split.
  - unfold field, thumbnailed, probed, exec, update_one, modify. simpl.
    rewrite !lookup_alter, !decide_True by done.
    destruct (videos st !! video_id m) as [doc|]; simpl; [|reflexivity].
    unfold set_fields, update_data. simpl. simplify_map_eq. reflexivity.
  - intros [doc Hdoc]. unfold thumbnailed, probed. field_of Hdoc.
Qed.
End StaleError.

Lemma done_write_keeps_error_message_witness :
  let st := set_queue [] (worker_loop env0 world_ffmpeg_fails_once 1 uploaded) in
  let st' := worker_execute env0 world_ffmpeg_fails_once (retry_message msg0 1060) st in
  field st' id0 "error_message" = field st id0 "error_message"
  /\ (is_Some (videos st !! id0) -> field st' id0 "status" = Some (VStr "done")).
Proof.
  apply (done_write_keeps_error_message env0 world_ffmpeg_fails_once
           (retry_message msg0 1060)
           (set_queue [] (worker_loop env0 world_ffmpeg_fails_once 1 uploaded))
           "00:02:00" 120%float true).
  - reflexivity.
  - vm_compute. reflexivity.
  - vm_compute. reflexivity.
Defined.

Section ThumbnailFailure.
Context (env : Env) (w : world).

(** X5.  When the duration step succeeds and the [try] body of
    [generate_thumbnail] raises [e0], the call of [process_video] writes
    [status = failed] with [error_message] equal to [str(e0)], prefixed by
    ["Failed to generate thumbnail: "] when [e0] is the [CalledProcessError]
    of a non-zero exit of ffmpeg.  The duration that was just extracted is
    not stored: [duration] and [thumbnail_filename] are as before the call. *)
Theorem thumbnail_failure_discards_duration m st doc duration_str d e0 :
  ObjectId_is_valid env (video_id m) = true ->
  videos st !! video_id m = Some doc ->
  duration_outcome env w (deliveries st) (video_path m) = inr (duration_str, d) ->
  (generate_thumbnail_try env w (video_path m) (thumbnail_path_of env m) d
     (idle (deliveries st))).1 = inl e0 ->
  let st' := exec (process_video env w m (video_id m) (video_path m) (stored_filename m)) st in
  let cmd := ffmpeg_cmd env (video_path m) (thumbnail_path_of env m) (thumbnail_time_of d) in
  field st' (video_id m) "status" = Some (VStr "failed")
  /\ field st' (video_id m) "error_message"
     = Some (VStr match e0 with
                  | CalledProcessError _ _ =>
                      "Failed to generate thumbnail: " ++ str_exn env e0
                  | _ => str_exn env e0
                  end)
  /\ field st' (video_id m) "duration" = doc !! "duration"
  /\ field st' (video_id m) "thumbnail_filename" = doc !! "thumbnail_filename"
  /\ (forall rc out err, w (deliveries st) cmd = Exited rc out err -> rc <> 0 ->
      e0 = CalledProcessError cmd rc).
Proof.
  intros Hid Hdoc Hd Htry st' cmd.
  set (error_message := match e0 with
                        | CalledProcessError _ _ =>
                            "Failed to generate thumbnail: " ++ str_exn env e0
                        | _ => str_exn env e0
                        end).
  assert (Hout : thumbnail_outcome env w (deliveries st) (video_path m)
                   (thumbnail_path_of env m) d
                 = inl (match e0 with
                        | CalledProcessError _ _ => Exception error_message
                        | _ => e0
                        end)).
  { unfold thumbnail_outcome, generate_thumbnail, try_except.
    rewrite generate_thumbnail_try_eq. simpl. rewrite Htry. destruct e0; reflexivity. }
  assert (Hstr : str_exn env (match e0 with
                              | CalledProcessError _ _ => Exception error_message
                              | _ => e0
                              end) = error_message)
    by (destruct e0; reflexivity).
  subst st'. unfold exec at 1 2 3 4. rewrite process_video_eq by assumption. simpl.
  rewrite Hd. fold (thumbnail_path_of env m). rewrite Hout.
  rewrite process_video_except_eq by assumption. simpl. rewrite Hstr.
  split; [|split; [|split; [|split]]].
  - destruct (3 <? S (retries m))%nat; field_of Hdoc.
  - destruct (3 <? S (retries m))%nat; field_of Hdoc.
  - destruct (3 <? S (retries m))%nat; field_of Hdoc.
  - destruct (3 <? S (retries m))%nat; field_of Hdoc.
  - intros rc out err Hw Hrc.
    rewrite generate_thumbnail_try_eq in Htry. simpl in Htry.
    unfold generate_thumbnail_try in Htry. run. rewrite subprocess_run_eq in Htry.
    simpl in Htry. fold cmd in Htry. rewrite Hw in Htry. simpl in Htry.
    destruct (rc =? 0) eqn:E; [apply Z.eqb_eq in E; contradiction|].
    simpl in Htry. injection Htry as <-. reflexivity.
Qed.
End ThumbnailFailure.

Lemma thumbnail_failure_discards_duration_witness :
  let st' := exec (process_video env0 world_ffmpeg_fails_once msg0 id0 "./uploads/9f1c.mp4"
                     "9f1c.mp4") uploaded in
  field st' id0 "status" = Some (VStr "failed")
  /\ field st' id0 "duration" = Some VNone
  /\ field st' id0 "thumbnail_filename" = None.
Proof.
  destruct (thumbnail_failure_discards_duration env0 world_ffmpeg_fails_once msg0 uploaded
              (default ∅ (videos uploaded !! id0)) "00:02:00" 120%float
              (CalledProcessError
                 (ffmpeg_cmd env0 "./uploads/9f1c.mp4" "./thumbnails/thumb_9f1c.jpg"
                    12%float) 1))
    as (Hs & _ & Hd & Ht & _).
  - reflexivity.
  - vm_compute. reflexivity.
  - vm_compute. reflexivity.
  - vm_compute. reflexivity.
  - split; [exact Hs|].
    split; (etransitivity; [eassumption | vm_compute; reflexivity]).
Defined.

Section DurationSuccess.
Context (env : Env) (w : world).

End DurationSuccess.



Section Upload.
Context (env : Env).

(** X8.  An upload whose content type is missing or does not start with
    [video/] is refused with status 400 before anything is done: no record is
    inserted, no task is published and the state is the one before. *)
Theorem upload_rejects_non_video content_type filename uuid4 inserted_id new_task_id st :
  match content_type with
  | None => True
  | Some ct => String.prefix "video/" ct = false
  end ->
  upload_video env content_type filename uuid4 inserted_id new_task_id st
    = (inl (HTTPException 400 "Only video files are allowed"), st).
Proof.
  intros Hct. unfold upload_video. run.
  destruct content_type as [ct|]; [rewrite Hct|]; reflexivity.
Qed.

(** The state after an accepted upload, written out. *)
Lemma upload_video_eq ct filename uuid4 inserted_id new_task_id st :
  String.prefix "video/" ct = true ->
  let unique_filename := uuid4 ++ (splitext filename).2 in
  let file_path := path_join (UPLOAD_DIR env) unique_filename in
  let doc := video_doc filename unique_filename file_path (isoformat env (now st)) in
  let task := {| task_id := new_task_id; video_id := inserted_id; video_path := file_path;
                 stored_filename := unique_filename; retries := 0; eta := now st |} in
  upload_video env (Some ct) filename uuid4 inserted_id new_task_id st
    = (inr {| ur_id := inserted_id; ur_filename := filename;
              ur_message := "Video uploaded successfully. Processing started." |},
       {| videos := <[inserted_id := <["task_id" := VStr new_task_id]> doc]> (videos st);
          queue := queue st ++ [task];
          now := now st;
          deliveries := deliveries st;
          log := EvUpdate inserted_id [("task_id", VStr new_task_id)]
                 :: EvSend task :: EvInsert inserted_id doc :: log st |}).
Proof.
  intros Hct. unfold upload_video, utcnow_isoformat, update_one. run. rewrite Hct. simpl.
  unfold emit, set_videos, set_queue. simpl. rewrite alter_insert_eq. reflexivity.
Qed.

(** X9.  An accepted upload answers with the new identifier and leaves
    exactly one new record and one new message: the record is the initial
    document ([status = pending], [duration] and [thumbnail_url] empty) plus
    [task_id]; the message is appended to the queue with retry count 0 and
    carries the identifier, path and stored name that the record holds; the
    stored name is the generated name followed by the extension of the
    uploaded name.  Other records are untouched.  The task is published
    before [task_id] is written. *)
Theorem upload_creates_pending_record ct filename uuid4 inserted_id new_task_id st :
  String.prefix "video/" ct = true ->
  let unique_filename := uuid4 ++ (splitext filename).2 in
  let file_path := path_join (UPLOAD_DIR env) unique_filename in
  let run := upload_video env (Some ct) filename uuid4 inserted_id new_task_id st in
  let st' := run.2 in
  run.1 = inr {| ur_id := inserted_id; ur_filename := filename;
                 ur_message := "Video uploaded successfully. Processing started." |}
  /\ field st' inserted_id "status" = Some (VStr "pending")
  /\ field st' inserted_id "filename" = Some (VStr filename)
  /\ field st' inserted_id "stored_filename" = Some (VStr unique_filename)
  /\ field st' inserted_id "file_path" = Some (VStr file_path)
  /\ field st' inserted_id "upload_time" = Some (VStr (isoformat env (now st)))
  /\ field st' inserted_id "task_id" = Some (VStr new_task_id)
  /\ field st' inserted_id "duration" = Some VNone
  /\ field st' inserted_id "thumbnail_url" = Some VNone
  /\ field st' inserted_id "thumbnail_filename" = None
  /\ (forall id, id <> inserted_id -> videos st' !! id = videos st !! id)
  /\ queue st' = (queue st ++ [{| task_id := new_task_id; video_id := inserted_id;
                                  video_path := file_path;
                                  stored_filename := unique_filename;
                                  retries := 0; eta := now st |}])%list
  /\ exists doc,
       log st' = EvUpdate inserted_id [("task_id", VStr new_task_id)]
                 :: EvSend {| task_id := new_task_id; video_id := inserted_id;
                              video_path := file_path;
                              stored_filename := unique_filename;
                              retries := 0; eta := now st |}
                 :: EvInsert inserted_id doc :: log st.
Proof.
  intros Hct unique_filename file_path run st'. subst st' run.
  rewrite upload_video_eq by assumption. simpl.
  split; [reflexivity|].
  repeat (split; [unfold field; simpl; rewrite lookup_insert_eq; reflexivity|]).
  split; [intros id Hne; apply lookup_insert_ne; congruence|].
  split; [reflexivity|]. eexists. reflexivity.
Qed.
End Upload.

Lemma upload_rejects_non_video_witness :
  upload_video env0 (Some "image/png") "cat.png" "9f1c" id0 "task-1" (idle 0)
    = (inl (HTTPException 400 "Only video files are allowed"), idle 0).
Proof.
  apply (upload_rejects_non_video env0 (Some "image/png") "cat.png" "9f1c" id0 "task-1"
           (idle 0)).
  reflexivity.
Defined.

Lemma upload_creates_pending_record_witness :
  field uploaded id0 "status" = Some (VStr "pending")
  /\ field uploaded id0 "stored_filename" = Some (VStr "9f1c.mp4")
  /\ queue uploaded = [msg0].
Proof.
  destruct (upload_creates_pending_record env0 "video/mp4" "holiday.mp4" "9f1c" id0 "task-1"
              (set_now 1000 (idle 0)) eq_refl)
    as (_ & Hs & _ & Hn & _ & _ & _ & _ & _ & _ & _ & Hq & _).
  split; [exact Hs|]. split; [exact Hn | exact Hq].
Defined.

Section EndpointErrors.
Context (env : Env).

End EndpointErrors.

Section UploadThenRead.
Context (env : Env) (w : world).

(** X11.  Right after an accepted upload, before any worker has run, the
    status endpoint reports [pending] and the metadata endpoint returns the
    uploaded name and instant with no duration and no thumbnail URL. *)
Theorem pending_after_upload ct filename uuid4 inserted_id new_task_id st :
  String.prefix "video/" ct = true ->
  ObjectId_is_valid env inserted_id = true ->
  let st' := exec (upload_video env (Some ct) filename uuid4 inserted_id new_task_id) st in
  (get_video_status env inserted_id st').1
    = inr {| vs_id := inserted_id; vs_status := "pending" |}
  /\ (get_video_metadata env inserted_id st').1
     = inr {| vm_id := inserted_id; vm_filename := filename;
              vm_upload_time := isoformat env (now st); vm_status := "pending";
              vm_duration := None; vm_thumbnail_url := None |}.
Proof.
  intros Hct Hid st'. subst st'. unfold exec. rewrite upload_video_eq by assumption.
  simpl. unfold get_video_status, get_video_metadata, find_one, doc_getitem, doc_get. run.
  rewrite Hid. simpl. rewrite lookup_insert_eq. split; reflexivity.
Qed.

(** X12.  Upload, processing and reading compose: after an accepted upload
    into a system with an empty queue, if ffprobe and ffmpeg succeed during
    the next execution, then once the worker has run the queue is empty again
    and the metadata endpoint returns [status = done], the duration text that
    [get_video_duration] computed, and the URL ["/thumbnails/thumb_<stem>.jpg"]
    for the stem of the stored name. *)
Theorem upload_process_read ct filename uuid4 inserted_id new_task_id st
    duration_str d ok fuel :
  String.prefix "video/" ct = true ->
  ObjectId_is_valid env inserted_id = true ->
  queue st = [] ->
  let unique_filename := uuid4 ++ (splitext filename).2 in
  let file_path := path_join (UPLOAD_DIR env) unique_filename in
  let thumbnail_filename := "thumb_" ++ (splitext unique_filename).1 ++ ".jpg" in
  duration_outcome env w (deliveries st) file_path = inr (duration_str, d) ->
  thumbnail_outcome env w (deliveries st) file_path
    (path_join (THUMBNAIL_DIR env) thumbnail_filename) d = inr ok ->
  let st1 := exec (upload_video env (Some ct) filename uuid4 inserted_id new_task_id) st in
  let st2 := worker_loop env w (S fuel) st1 in
  queue st2 = []
  /\ (get_video_status env inserted_id st2).1
     = inr {| vs_id := inserted_id; vs_status := "done" |}
  /\ (get_video_metadata env inserted_id st2).1
     = inr {| vm_id := inserted_id; vm_filename := filename;
              vm_upload_time := isoformat env (now st); vm_status := "done";
              vm_duration := Some duration_str;
              vm_thumbnail_url := Some ("/thumbnails/" ++ thumbnail_filename) |}.
Proof.
  intros Hct Hid Hq unique_filename file_path thumbnail_filename Hd Ht st1 st2.
  subst st2 st1. unfold exec. rewrite upload_video_eq by assumption. simpl.
  rewrite Hq. simpl. rewrite worker_execute_eq by assumption. simpl.
  fold unique_filename. fold file_path. rewrite Hd.
  change (thumbnail_path_of env _)
    with (path_join (THUMBNAIL_DIR env) thumbnail_filename).
  rewrite Ht. rewrite worker_loop_empty by reflexivity.
  split; [reflexivity|].
  unfold get_video_status, get_video_metadata, find_one, doc_getitem, doc_get. run.
  rewrite Hid. simpl.
  rewrite !lookup_alter, !decide_True, lookup_insert_eq by done. simpl.
  split; reflexivity.
Qed.
End UploadThenRead.

Lemma pending_after_upload_witness :
  (get_video_status env0 id0 uploaded).1 = inr {| vs_id := id0; vs_status := "pending" |}
  /\ (get_video_metadata env0 id0 uploaded).1
     = inr {| vm_id := id0; vm_filename := "holiday.mp4"; vm_upload_time := "T1000";
              vm_status := "pending"; vm_duration := None; vm_thumbnail_url := None |}.
Proof.
  apply (pending_after_upload env0 "video/mp4" "holiday.mp4" "9f1c" id0 "task-1"
           (set_now 1000 (idle 0))); reflexivity.
Defined.

Lemma upload_process_read_witness :
  queue processed = []
  /\ (get_video_status env0 id0 processed).1 = inr {| vs_id := id0; vs_status := "done" |}
  /\ (get_video_metadata env0 id0 processed).1
     = inr {| vm_id := id0; vm_filename := "holiday.mp4"; vm_upload_time := "T1000";
              vm_status := "done"; vm_duration := Some "00:02:00";
              vm_thumbnail_url := Some "/thumbnails/thumb_9f1c.jpg" |}.
Proof.
  apply (upload_process_read env0 (world_ok "120.000000") "video/mp4" "holiday.mp4" "9f1c"
           id0 "task-1" (set_now 1000 (idle 0)) "00:02:00" 120%float true 0).
  - reflexivity.
  - reflexivity.
  - reflexivity.
  - vm_compute. reflexivity.
  - vm_compute. reflexivity.
Defined.

Lemma upload_time_desc_total : Total upload_time_desc.
Proof.
  intros a b. unfold upload_time_desc, value_leb.
  destruct (doc_get a.2 "upload_time") as [|x], (doc_get b.2 "upload_time") as [|y]; auto.
  destruct (String.leb_total x y); auto.
Qed.

(** X13.  [list_videos] is a pure read that lists every record of the
    collection exactly once, each with its identifier under [id] and its
    other fields unchanged, in descending order of [upload_time]. *)
Theorem list_videos_lists_every_record env st :
  exec (list_videos env) st = st
  /\ exists docs,
       (list_videos env st).1
         = inr (map (fun d => Some (<["id" := VStr d.1]> d.2)) docs)
       /\ docs ≡ₚ map_to_list (videos st)
       /\ Sorted upload_time_desc docs
       /\ length docs = size (videos st)
       /\ (forall id doc, (id, doc) ∈ docs <-> videos st !! id = Some doc).
Proof.
  split; [reflexivity|]. exists (find_sorted st).
  assert (Hp : find_sorted st ≡ₚ map_to_list (videos st))
    by apply merge_sort_Permutation.
  split; [|split; [exact Hp | split; [|split]]].
  - unfold list_videos. run. f_equal. apply map_ext. intros [oid fields]. reflexivity.
  - apply (@Sorted_merge_sort _ upload_time_desc _ upload_time_desc_total).
  - rewrite Hp. apply length_map_to_list.
  - intros id doc. rewrite Hp. apply elem_of_map_to_list.
Qed.

(** ** Copying the upload *)

Lemma copy_chunks_all fuel : forall unread written,
  (length unread + 1024 <= fuel * 1024)%nat ->
  copy_chunks fuel unread written = Some (written ++ unread)%list.
Proof.
  induction fuel as [|fuel IH]; intros unread written Hfuel; [lia|].
  cbn [copy_chunks read_chunk].
  destruct (take 1024 unread) as [|b chunk] eqn:Hchunk.
  - assert (unread = []) as ->.
    { destruct unread; [reflexivity | discriminate]. }
    rewrite app_nil_r. reflexivity.
  - rewrite IH.
    + rewrite <- app_assoc, <- Hchunk, take_drop. reflexivity.
    + rewrite length_drop.
      assert (length (take 1024 unread) <> 0)%nat by (rewrite Hchunk; discriminate).
      rewrite length_take in H. lia.
Qed.

Lemma copy_chunks_some fuel : forall unread written result,
  copy_chunks fuel unread written = Some result -> result = (written ++ unread)%list.
Proof.
  induction fuel as [|fuel IH]; intros unread written result; [discriminate|].
  cbn [copy_chunks read_chunk].
  destruct (take 1024 unread) as [|b chunk] eqn:Hchunk.
  - assert (unread = []) as ->.
    { destruct unread; [reflexivity | discriminate]. }
    intros [= <-]. rewrite app_nil_r. reflexivity.
  - intros H. apply IH in H. rewrite H, <- app_assoc, <- Hchunk, take_drop. reflexivity.
Qed.

(** X14.  [save_upload_file] copies the upload exactly.  Given fuel for all
    its reads (one per 1024 bytes started, and the empty one that ends the
    loop) it finishes, and whenever it finishes the destination holds the
    uploaded bytes, whatever it held before, and every other file is as it
    was. *)
Theorem save_upload_file_copies fuel content destination files :
  ((length content + 1024 <= fuel * 1024)%nat ->
     save_upload_file fuel content destination files
       = Some (<[destination := content]> files))
  /\ (forall files', save_upload_file fuel content destination files = Some files' ->
        files' !! destination = Some content
        /\ forall path, path <> destination -> files' !! path = files !! path).
Proof.
  unfold save_upload_file. split.
  - intros Hfuel. rewrite copy_chunks_all by assumption. reflexivity.
  - intros files'. destruct (copy_chunks fuel content []) as [written|] eqn:Hc; [|discriminate].
    apply copy_chunks_some in Hc. simpl in Hc. subst written. intros [= <-]. split.
    + apply lookup_insert_eq.
    + intros path Hne. apply lookup_insert_ne. congruence.
Qed.

Example save_upload_file_ex :
  save_upload_file 2 [Byte.x01; Byte.x02; Byte.x03] "./uploads/a.mp4"
    {["./uploads/a.mp4" := [Byte.xff]]}
  = Some {["./uploads/a.mp4" := [Byte.x01; Byte.x02; Byte.x03]]}
  /\ save_upload_file 1 [Byte.x01] "a" ∅ = None
  /\ save_upload_file 1 [] "a" ∅ = Some {["a" := []]}.
Proof. vm_compute. repeat split. Qed.

(** ** File names *)

Lemma occurs_app c a b : occurs c (a ++ b) = occurs c a || occurs c b.
Proof.
  induction a as [|x a IH]; [reflexivity|].
  change (occurs c (String x (a ++ b)) = occurs c (String x a) || occurs c b).
  simpl. rewrite IH. apply orb_assoc.
Qed.

Lemma rfind_from_absent c s : forall i last,
  occurs c s = false -> rfind_from c s i last = last.
Proof.
  induction s as [|x s IH]; intros i last H; [reflexivity|].
  simpl in *. apply orb_false_iff in H as [Hx Hs]. rewrite Hx. apply IH, Hs.
Qed.

Lemma rfind_from_last c a b : forall i last,
  occurs c b = false ->
  rfind_from c (a ++ String c b) i last = i + Z.of_nat (String.length a).
Proof.
  induction a as [|x a IH]; intros i last Hb.
  - change (rfind_from c (String c b) i last = i + 0). simpl.
    rewrite Ascii.eqb_refl, rfind_from_absent by assumption. lia.
  - change (rfind_from c (String x (a ++ String c b)) i last
            = i + Z.of_nat (S (String.length a))).
    simpl rfind_from. rewrite IH by assumption. lia.
Qed.

Lemma rfind_cases c s :
  (occurs c s = false /\ rfind c s = -1)
  \/ exists a b, s = a ++ String c b /\ occurs c b = false
                 /\ rfind c s = Z.of_nat (String.length a).
Proof.
  unfold rfind. induction s as [|x s IH].
  - left. split; reflexivity.
  - destruct IH as [[Hs _]|(a & b & -> & Hb & _)].
    + destruct (Ascii.eqb x c) eqn:Hx.
      * right. exists "", s. apply Ascii.eqb_eq in Hx. subst x.
        split; [reflexivity|]. split; [assumption|].
        apply (rfind_from_last c "" s 0 (-1) Hs).
      * left. split; [simpl; rewrite Hx; assumption|].
        simpl. rewrite Hx. apply rfind_from_absent, Hs.
    + right. exists (String x a), b. split; [reflexivity|]. split; [assumption|].
      apply (rfind_from_last c (String x a) b 0 (-1) Hb).
Qed.

Lemma substring_prefix a b : substring 0 (String.length a) (a ++ b) = a.
Proof.
  induction a as [|x a IH]; simpl.
  - destruct b; reflexivity.
  - change (String x (substring 0 (String.length a) (a ++ b)) = String x a).
    now rewrite IH.
Qed.

Lemma substring_suffix a b :
  substring (String.length a) (String.length (a ++ b) - String.length a) (a ++ b) = b.
Proof.
  induction a as [|x a IH].
  - simpl. rewrite Nat.sub_0_r. apply substring_all.
  - change (substring (String.length a)
              (S (String.length (a ++ b)) - S (String.length a)) (a ++ b) = b).
    simpl Nat.sub. exact IH.
Qed.

(** The part after a later separator contains the part after an earlier
    one. *)
Lemma append_overlap a' : forall a x y b b',
  a ++ String x b = a' ++ String y b' ->
  (String.length a' < String.length a)%nat ->
  exists m, b' = m ++ String x b.
Proof.
  induction a' as [|c a' IH]; intros a x y b b' Heq Hlen.
  - destruct a as [|c0 a]; [simpl in Hlen; lia|].
    change (String c0 (a ++ String x b) = String y b') in Heq.
    injection Heq as _ <-. eauto.
  - destruct a as [|c0 a]; [simpl in Hlen; lia|].
    change (String c0 (a ++ String x b) = String c (a' ++ String y b')) in Heq.
    injection Heq as _ Heq. apply (IH a x y b b' Heq). simpl in Hlen. lia.
Qed.

(** What [os.path.splitext] returns: the path and an empty extension, or the
    path cut at its last dot, when the part after that dot has no
    separator. *)
Lemma splitext_cases p :
  splitext p = (p, "")
  \/ exists a b, p = a ++ String "." b /\ occurs "." b = false /\ occurs "/" b = false
                 /\ splitext p = (a, String "." b).
Proof.
  unfold splitext.
  destruct ((rfind "/" p <? rfind "." p) && _) eqn:Hc; [|left; reflexivity].
  apply andb_true_iff in Hc as [Hlt _]. apply Z.ltb_lt in Hlt.
  right.
  destruct (rfind_cases "." p) as [[_ Hd]|(a & b & Hp & Hb & Hd)].
  { destruct (rfind_cases "/" p) as [[_ Hs]|(a' & b' & _ & _ & Hs)]; lia. }
  exists a, b. split; [exact Hp|]. split; [exact Hb|]. split.
  - destruct (rfind_cases "/" p) as [[Hno _]|(a' & b' & Hp' & Hb' & Hs)].
    + rewrite Hp, occurs_app in Hno. apply orb_false_iff in Hno as [_ Hno].
      simpl in Hno. exact Hno.
    + assert (Hl : (String.length a' < String.length a)%nat) by lia.
      rewrite Hp in Hp'.
      destruct (append_overlap a' a "." "/" b b' Hp' Hl) as (m & ->).
      rewrite occurs_app in Hb'. apply orb_false_iff in Hb' as [_ Hb']. exact Hb'.
  - rewrite Hd. unfold slice_to, slice_from. rewrite Nat2Z.id.
    rewrite Hp at 1 2 3. rewrite substring_prefix, substring_suffix. reflexivity.
Qed.

Lemma starts_with_slash_absent s : occurs "/" s = false -> starts_with_slash s = false.
Proof.
  destruct s as [|x s]; [reflexivity|]. simpl. intros H.
  apply orb_false_iff in H as [H _]. exact H.
Qed.

(** X15.  The extension [upload_video] takes from the uploaded file name is
    empty or a dot followed by characters that are neither a dot nor a
    separator.  So when the generated name has no separator, the stored name
    has none either, and the stored path is the upload directory, a
    separator when the directory needs one, and the stored name: a file
    name sent by the client cannot move the file out of that directory. *)
Theorem upload_name_is_safe filename uuid4 dir :
  let ext := (splitext filename).2 in
  let unique_filename := uuid4 ++ ext in
  occurs "/" ext = false
  /\ (ext = "" \/ exists r, ext = String "." r /\ occurs "." r = false)
  /\ (occurs "/" uuid4 = false ->
      occurs "/" unique_filename = false
      /\ path_join dir unique_filename
         = if (String.length dir =? 0)%nat || ends_with_slash dir
           then dir ++ unique_filename
           else dir ++ "/" ++ unique_filename).
Proof.
  intros ext unique_filename.
  assert (Hext : occurs "/" ext = false
                 /\ (ext = "" \/ exists r, ext = String "." r /\ occurs "." r = false)).
  { subst ext. destruct (splitext_cases filename) as [->|(a & b & _ & Hb & Hs & ->)]; simpl.
    - split; [reflexivity | left; reflexivity].
    - split; [exact Hs | right; eauto]. }
  destruct Hext as [Hslash Hshape]. split; [exact Hslash|]. split; [exact Hshape|].
  intros Hu.
  assert (Hno : occurs "/" unique_filename = false).
  { subst unique_filename. rewrite occurs_app, Hu, Hslash. reflexivity. }
  split; [exact Hno|]. unfold path_join.
  rewrite (starts_with_slash_absent _ Hno). reflexivity.
Qed.

Lemma upload_name_is_safe_witness :
  occurs "/" ".mp4" = false
  /\ (".mp4" = "" \/ exists r, ".mp4" = String "." r /\ occurs "." r = false)
  /\ (occurs "/" "9f1c" = false ->
      occurs "/" "9f1c.mp4" = false
      /\ path_join "./uploads" "9f1c.mp4" = "./uploads/9f1c.mp4").
Proof.
  exact (upload_name_is_safe "../../etc/holiday.mp4" "9f1c" "./uploads").
Defined.

(** X16.  Splitting the stored name [upload_video] builds gives back its two
    parts: for a generated name that is not empty and has neither a dot nor a
    separator, [os.path.splitext] of the stored name is the generated name
    and the extension of the upload.  The thumbnail of an uploaded video is
    therefore named [thumb_<generated name>.jpg], whatever the client called
    the file. *)
Theorem thumbnail_name_of_upload filename uuid4 :
  uuid4 <> "" ->
  occurs "." uuid4 = false ->
  occurs "/" uuid4 = false ->
  let ext := (splitext filename).2 in
  splitext (uuid4 ++ ext) = (uuid4, ext)
  /\ thumbnail_filename_of (uuid4 ++ ext) = "thumb_" ++ uuid4 ++ ".jpg".
Proof.
  intros Hne Hdot Hslash ext.
  assert (Hsplit : splitext (uuid4 ++ ext) = (uuid4, ext)).
  { destruct (upload_name_is_safe filename uuid4 "") as (Hes & Hshape & _).
    fold ext in Hes, Hshape.
    destruct Hshape as [->|(r & -> & Hr)].
    - rewrite append_empty_r. unfold splitext.
      assert (Hd : rfind "." uuid4 = -1) by (apply rfind_from_absent, Hdot).
      assert (Hs : rfind "/" uuid4 = -1) by (apply rfind_from_absent, Hslash).
      rewrite Hd, Hs. reflexivity.
    - unfold splitext.
      assert (Hd : rfind "." (uuid4 ++ String "." r) = Z.of_nat (String.length uuid4))
        by (apply (rfind_from_last "." uuid4 r 0 (-1) Hr)).
      assert (Hs : rfind "/" (uuid4 ++ String "." r) = -1).
      { apply rfind_from_absent. rewrite occurs_app, Hslash. exact Hes. }
      rewrite Hd, Hs.
      assert (Hlt : (-1 <? Z.of_nat (String.length uuid4)) = true) by (apply Z.ltb_lt; lia).
      rewrite Hlt.
      assert (Hnd : non_dot_before (uuid4 ++ String "." r) (Z.to_nat (-1 + 1))
                      (Z.to_nat (Z.of_nat (String.length uuid4) - (-1 + 1))) = true).
      { replace (Z.of_nat (String.length uuid4) - (-1 + 1))
          with (Z.of_nat (String.length uuid4)) by lia.
        rewrite Nat2Z.id. destruct uuid4 as [|x u]; [contradiction|].
        simpl in Hdot. apply orb_false_iff in Hdot as [Hx _].
        change (Z.to_nat (-1 + 1)) with 0%nat. simpl. rewrite Hx. reflexivity. }
      rewrite Hnd. simpl andb. cbv iota.
      unfold slice_to, slice_from. rewrite Nat2Z.id.
      rewrite substring_prefix, substring_suffix. reflexivity. }
  split; [exact Hsplit|]. unfold thumbnail_filename_of. rewrite Hsplit. reflexivity.
Qed.

Lemma thumbnail_name_of_upload_witness :
  splitext ("9f1c" ++ ".mp4") = ("9f1c", ".mp4")
  /\ thumbnail_filename_of ("9f1c" ++ ".mp4") = "thumb_" ++ "9f1c" ++ ".jpg".
Proof.
  apply (thumbnail_name_of_upload "my.holiday.mp4" "9f1c").
  - discriminate.
  - reflexivity.
  - reflexivity.
Defined.

(** ** The states the system can be in *)

Ltac doc_field H :=
  unfold set_fields, failed_data, update_data; simpl;
  repeat (rewrite lookup_insert_eq || rewrite lookup_insert_ne by discriminate);
  first [exact H | reflexivity].

Lemma processing_doc_ok doc :
  doc_ok doc -> doc_ok (set_fields [("status", VStr "processing")] doc).
Proof.
  intros ((f & Hf) & (u & Hu) & _ & Ht). unfold doc_ok, thumbnail_field_ok in *.
  split; [exists f; doc_field Hf|].
  split; [exists u; doc_field Hu|].
  split; [exists "processing"; split; [doc_field Hf | simpl; tauto]|].
  doc_field Ht.
Qed.

Lemma failed_doc_ok doc error_message processed_time :
  doc_ok doc -> doc_ok (set_fields (failed_data error_message processed_time) doc).
Proof.
  intros ((f & Hf) & (u & Hu) & _ & Ht). unfold doc_ok, thumbnail_field_ok in *.
  split; [exists f; doc_field Hf|].
  split; [exists u; doc_field Hu|].
  split; [exists "failed"; split; [doc_field Hf | simpl; tauto]|].
  doc_field Ht.
Qed.

Lemma done_doc_ok doc duration_str stored_filename processed_time :
  doc_ok doc ->
  doc_ok (set_fields (update_data duration_str (thumbnail_filename_of stored_filename)
                        processed_time) doc).
Proof.
  intros ((f & Hf) & (u & Hu) & _ & Ht). unfold doc_ok, thumbnail_field_ok in *.
  split; [exists f; doc_field Hf|].
  split; [exists u; doc_field Hu|].
  split; [exists "done"; split; [doc_field Hf | simpl; tauto]|].
  doc_field Ht.
Qed.

Section Reachable.
Context (env : Env) (w : world).

Lemma records_ok_videos st st' :
  videos st' = videos st -> records_ok env st -> records_ok env st'.
Proof. unfold records_ok. intros ->. auto. Qed.

Lemma update_one_records_ok id fields st :
  (forall doc, doc_ok doc -> doc_ok (set_fields fields doc)) ->
  records_ok env st -> records_ok env (exec (update_one id fields) st).
Proof.
  intros Hf Hok id' doc. rewrite videos_update_one.
  destruct (decide (id = id')) as [->|]; [|apply Hok].
  destruct (videos st !! id') as [doc0|] eqn:E; simpl; [|discriminate].
  intros [= <-]. destruct (Hok _ _ E). auto.
Qed.

Lemma worker_execute_records_ok m st :
  records_ok env st -> records_ok env (worker_execute env w m st).
Proof.
  intros Hok.
  destruct (ObjectId_is_valid env (video_id m)) eqn:Hid.
  - rewrite worker_execute_eq by assumption.
    assert (H1 : records_ok env (probed m st)).
    { unfold probed. eapply records_ok_videos; [reflexivity|].
      apply update_one_records_ok; [intros doc Hd; apply processing_doc_ok, Hd|].
      eapply records_ok_videos; [|exact Hok]. reflexivity. }
    assert (Hexc : forall e st0, records_ok env st0 -> records_ok env (after_except env m e st0)).
    { intros e st0 H0.
      apply (records_ok_videos
               (exec (update_one (video_id m)
                        (failed_data (str_exn env e) (isoformat env (now st0)))) st0)).
      - unfold after_except. destruct (3 <? S (retries m))%nat; reflexivity.
      - apply update_one_records_ok; [intros doc Hd; apply failed_doc_ok, Hd | exact H0]. }
    destruct (duration_outcome env w (deliveries st) (video_path m)) as [e|[s d]];
      [apply Hexc, H1|].
    assert (H2 : records_ok env (thumbnailed env m d st))
      by (eapply records_ok_videos; [|exact H1]; reflexivity).
    destruct (thumbnail_outcome env w (deliveries st) (video_path m) _ d) as [e|ok];
      [apply Hexc, H2|].
    eapply records_ok_videos; [reflexivity|].
    apply update_one_records_ok; [intros doc Hd; apply done_doc_ok, Hd | exact H2].
  - unfold worker_execute. rewrite process_video_invalid_id by assumption.
    eapply records_ok_videos; [|exact Hok]. reflexivity.
Qed.

Lemma worker_execute_queue_any m st :
  let st' := worker_execute env w m st in
  queue st' = queue st
  \/ (retries m < 3)%nat /\ exists t, queue st' = (queue st ++ [retry_message m t])%list.
Proof.
  intros st'. subst st'.
  destruct (ObjectId_is_valid env (video_id m)) eqn:Hid.
  - rewrite worker_execute_eq by assumption.
    assert (Hexc : forall e st0, queue st0 = queue st ->
      queue (after_except env m e st0) = queue st
      \/ (retries m < 3)%nat
         /\ exists t, queue (after_except env m e st0) = (queue st ++ [retry_message m t])%list).
    { intros e st0 Hq0. unfold after_except.
      destruct (3 <? S (retries m))%nat eqn:Hlt; simpl.
      - left. exact Hq0.
      - apply Nat.ltb_ge in Hlt. right. split; [lia|]. rewrite Hq0. eauto. }
    destruct (duration_outcome env w (deliveries st) (video_path m)) as [e|[s d]];
      [apply Hexc; reflexivity|].
    destruct (thumbnail_outcome env w (deliveries st) (video_path m) _ d) as [e|ok];
      [apply Hexc; reflexivity|].
    left. reflexivity.
  - unfold worker_execute. rewrite process_video_invalid_id by assumption. left. reflexivity.
Qed.

Lemma touches_only_field id st st' id' key :
  touches_only id pipeline_fields st st' ->
  ~ In key pipeline_fields ->
  field st' id' key = field st id' key.
Proof.
  intros (Hother & Hkey & _) Hk.
  destruct (decide (id' = id)) as [->|Hne]; [apply Hkey, Hk|].
  unfold field. rewrite Hother by assumption. reflexivity.
Qed.

Lemma message_ok_frame id st st' m :
  touches_only id pipeline_fields st st' -> message_ok st m -> message_ok st' m.
Proof.
  intros Ht (Hr & Hp & Hs). unfold message_ok.
  rewrite !(touches_only_field id st st') by
    (assumption || (unfold pipeline_fields; simpl; intuition discriminate)).
  auto.
Qed.

(** X17.  In every state the system can reach from empty, by uploads,
    executions of the worker and the passing of time: each record has an
    identifier that parses, string [filename], [upload_time] and [status],
    a [status] among [pending], [processing], [done] and [failed], and a
    [thumbnail_filename] that is absent or a non-empty string; each queued
    message has been retried at most three times and carries the file path
    and stored name that its record holds. *)
Theorem reachable_system_ok st : reachable env w st -> system_ok env st.
Proof.
  induction 1 as [n t | st ct filename uuid4 id tid Hreach [Hrec Hmsg] Hfresh Hid
                 | st m q Hreach [Hrec Hmsg] Hq | st t Hreach [Hrec Hmsg] Ht].
  - split; [intros id doc Hdoc; simpl in Hdoc; rewrite lookup_empty in Hdoc; discriminate
           | intros m []].
  - destruct (match ct with Some c => String.prefix "video/" c | None => false end) eqn:Hct.
    + destruct ct as [c|]; [|discriminate]. unfold exec.
      rewrite upload_video_eq by assumption. simpl. split.
      * intros id' doc. simpl. destruct (decide (id = id')) as [<-|Hne].
        -- rewrite lookup_insert_eq. intros [= <-]. split; [exact Hid|].
           unfold doc_ok, thumbnail_field_ok, status_values.
           repeat split; try (eexists; split); try (eexists; reflexivity);
             try reflexivity. simpl. tauto.
        -- rewrite lookup_insert_ne by assumption. apply Hrec.
      * intros m Hin. simpl in Hin. apply in_app_or in Hin as [Hin|[<-|[]]].
        -- destruct (Hmsg m Hin) as (Hr & Hp & Hs). unfold message_ok, field in *. simpl.
           assert (video_id m <> id).
           { intros Heq. rewrite Heq, Hfresh in Hp. discriminate. }
           rewrite lookup_insert_ne by congruence. auto.
        -- unfold message_ok, field. simpl. rewrite lookup_insert_eq. simpl.
           split; [lia | split; reflexivity].
    + assert (Hrej : exec (upload_video env ct filename uuid4 id tid) st = st).
      { unfold exec. rewrite upload_rejects_non_video; [reflexivity|].
        destruct ct as [c|]; [|exact I]. exact Hct. }
      rewrite Hrej. split; assumption.
  - split.
    + apply worker_execute_records_ok. eapply records_ok_videos; [|exact Hrec]. reflexivity.
    + pose proof (worker_execute_frame env w m (set_queue q st)) as Hframe.
      assert (Hold : forall m', In m' (queue st) ->
                message_ok (worker_execute env w m (set_queue q st)) m').
      { intros m' Hin. apply (message_ok_frame _ _ _ _ Hframe).
        destruct (Hmsg m' Hin) as (Hr & Hp & Hs). split; [exact Hr | split; assumption]. }
      intros m' Hin.
      destruct (worker_execute_queue_any m (set_queue q st)) as [Hq'|(Hr & t & Hq')];
        rewrite Hq' in Hin; simpl in Hin.
      * apply Hold. rewrite Hq. right. exact Hin.
      * apply in_app_or in Hin as [Hin|[<-|[]]].
        -- apply Hold. rewrite Hq. right. exact Hin.
        -- assert (Hm : message_ok (worker_execute env w m (set_queue q st)) m)
             by (apply Hold; rewrite Hq; left; reflexivity).
           destruct Hm as (_ & Hp & Hs). split; [simpl; lia | split; assumption].
  - split; [exact Hrec | exact Hmsg].
Qed.
End Reachable.

Section ReachableReads.
Context (env : Env) (w : world).

End ReachableReads.

Lemma processed_reachable : reachable env0 (world_ok "120.000000") processed.
Proof.
  apply (reachable_execute env0 (world_ok "120.000000") uploaded msg0 []); [|reflexivity].
  apply (reachable_upload env0 (world_ok "120.000000") (set_now 1000 (idle 0))
           (Some "video/mp4") "holiday.mp4" "9f1c" id0 "task-1").
  - apply (reachable_empty env0 (world_ok "120.000000") 0 1000).
  - reflexivity.
  - reflexivity.
Defined.

Lemma reachable_system_ok_witness : system_ok env0 processed.
Proof.
  apply (reachable_system_ok env0 (world_ok "120.000000") processed processed_reachable).
Defined.


Lemma executions_left_app q1 q2 :
  executions_left (q1 ++ q2) = (executions_left q1 + executions_left q2)%nat.
Proof. induction q1 as [|m q1 IH]; simpl; [reflexivity | rewrite IH; lia]. Qed.

Section Drain.
Context (env : Env) (w : world).

(** X19.  The worker loop terminates on every queue: whatever the tools do,
    with fuel for one execution per queued message and per retry a message
    has left, the loop ends with an empty queue, and it has then executed at
    most that many tasks. *)
Theorem worker_drains_every_queue fuel : forall st,
  (executions_left (queue st) <= fuel)%nat ->
  let st' := worker_loop env w fuel st in
  queue st' = []
  /\ (deliveries st' <= deliveries st + executions_left (queue st))%nat.
Proof.
  induction fuel as [|fuel IH]; intros st Hfuel; simpl.
  - destruct (queue st) as [|m q]; [split; [reflexivity | lia] | simpl in Hfuel; lia].
  - destruct (queue st) as [|m q] eqn:Hq; [split; [assumption | lia]|].
    simpl in Hfuel.
    pose proof (worker_execute_queue_any env w m (set_queue q st)) as Hstep.
    assert (Hn : deliveries (worker_execute env w m (set_queue q st)) = S (deliveries st)).
    { destruct (ObjectId_is_valid env (video_id m)) eqn:Hid.
      - rewrite worker_execute_eq by assumption.
        destruct (duration_outcome env w _ (video_path m)) as [e|[s d]];
          [unfold after_except; destruct (3 <? S (retries m))%nat; reflexivity|].
        destruct (thumbnail_outcome env w _ (video_path m) _ d) as [e|ok]; [|reflexivity].
        unfold after_except; destruct (3 <? S (retries m))%nat; reflexivity.
      - unfold worker_execute. rewrite process_video_invalid_id by assumption. reflexivity. }
    simpl in Hstep.
    destruct (IH (worker_execute env w m (set_queue q st))) as [Hq' Hd'].
    + destruct Hstep as [->|(Hr & t & ->)]; [lia|].
      rewrite executions_left_app.
      change (executions_left [retry_message m t]) with (S (3 - S (retries m)) + 0)%nat.
      lia.
    + split; [exact Hq'|]. rewrite Hn in Hd'. cbn [executions_left].
      destruct Hstep as [Hs|(Hr & t & Hs)]; rewrite Hs in Hd'; [lia|].
      rewrite executions_left_app in Hd'.
      change (executions_left [retry_message m t]) with (S (3 - S (retries m)) + 0)%nat in Hd'.
      lia.
Qed.
End Drain.

Lemma worker_drains_every_queue_witness :
  let st' := worker_loop env0 world_ffprobe_fails 4 uploaded in
  queue st' = []
  /\ (deliveries st' <= deliveries uploaded + executions_left (queue uploaded))%nat.
Proof.
  apply (worker_drains_every_queue env0 world_ffprobe_fails 4 uploaded).
  vm_compute. lia.
Defined.
